(** * WinGo ensemble forecasting core (l.js): a shallow embedding

    The embedding follows [src/l.js] function by function and keeps the
    source's names.  Conventions:

    - A JS number is an exact rational ([Q]): rounding and the infinities
      are not represented.  [NaN] is represented where the control flow
      depends on it (the weights inside [updateModelWeights], where it is
      [None]); elsewhere the model says at the place where JS would
      produce it.  Every division of the source is guarded or has a
      positive divisor on the paths the theorems cover; [Q] returns 0 for
      a division by zero.
    - The transcendental functions and the two sources of non-determinism
      ([Math.random], [Date.now]) are taken as an interface, [JSMath].
    - A [Map] is a [gmap]; a plain object used as a dictionary and iterated
      in insertion order is an association list.
    - The buffer and the input of the predictors are lists of records.
      The trainer is modelled on any JS array of records, sparse ones and
      ones with [null] or [undefined] elements included ([Slot]), since
      those are the inputs on which a training pass can throw.
    - A thrown exception is the [Throw] completion of the [Eff] monad; the
      state reached at the throw is kept, as it is in JS.  The logger is
      left out: its calls neither change the state nor fail.
    - [trainAllModels] is [async] without any suspension point of its own
      (it awaits promises that are already resolved); it is modelled as
      the synchronous function it amounts to. *)

From Stdlib Require Import QArith Qabs Qminmax Qround Lia Lqa.
From stdpp Require Import base strings gmap list pretty.

(** ** Numbers *)

Module JSNum.

Definition ltb (x y : Q) : bool := negb (Qle_bool y x).
Definition leb (x y : Q) : bool := Qle_bool x y.
Definition gtb (x y : Q) : bool := ltb y x.
Definition geb (x y : Q) : bool := leb y x.

(** [x || d] on numbers: [0] is falsy. *)
Definition or_default (x d : Q) : Q := if Qeq_bool x 0 then d else x.

Definition ofNat (n : nat) : Q := inject_Z (Z.of_nat n).

(** [Math.round]: the nearest integer, halves rounded up. *)
Definition round (x : Q) : Z := Qfloor (x + (1 # 2)).

Definition sum (l : list Q) : Q := foldl Qplus 0%Q l.

End JSNum.

(** The part of the JS runtime the core calls and that has no rational
    model.  [Math_random k] is the value of the [k]-th call of
    [Math.random] made by [createLSTMCell] (its only caller). *)
Class JSMath := {
  Math_exp : Q → Q;
  Math_tanh : Q → Q;
  Math_sqrt : Q → Q;
  Math_log2 : Q → Q;
  Math_random : nat → Q;
  Date_now : Z
}.

(** ** Data model *)

Inductive Label := BIG | SMALL.

#[global] Instance Label_eq_dec : EqDecision Label.
Proof. solve_decision. Defined.

Definition Label_eqb (a b : Label) : bool := bool_decide (a = b).

(** One validated draw, as [fetchData] builds it. *)
Record OutcomeRecord := {
  issueNumber : string;
  number : nat;
  bigSmall : Label;
  binary : nat;
  timestamp : Z
}.

(** An element of a JS array as the trainer can meet it: an object, a
    missing index of a sparse array ([Hole]), or [null]/[undefined]
    ([Nullish]).  Array methods with a callback skip holes; reading a
    property of a hole read by index, or of a nullish element, throws. *)
Inductive Slot (A : Type) := Hole | Nullish | Item (a : A).
Arguments Hole {A}.
Arguments Nullish {A}.
Arguments Item {A} a.

(** [{ counts: new Array(10).fill(0), total: 0 }] *)
Record Stats := { counts : list nat; total : nat }.

Record Perf := { wins : nat; perf_total : nat; recentAccuracy : Q }.

Record LSTMCell := {
  Wi : list (list Q); Wf : list (list Q); Wo : list (list Q); Wc : list (list Q);
  Ui : list (list Q); Uf : list (list Q); Uo : list (list Q); Uc : list (list Q);
  bi : list Q; bf : list Q; bo : list Q; bc : list Q;
  hidden : list Q;
  cell : list Q
}.

(** The three bit windows; [None] is a hole inherited from a sparse input. *)
Record TrendAnalyzer := {
  shortTerm : list (option nat);
  mediumTerm : list (option nat);
  longTerm : list (option nat)
}.

(** [isExploitable] is absent from the initial object: [None] is
    [undefined]. *)
Record MarketState := {
  volatility : Q;
  bias : Q;
  entropy : Q;
  recentTrend : string;
  market_confidence : Q;
  lastUpdate : Z;
  randomnessQuality : Q;
  isExploitable : option bool
}.

(** The process-wide variables of the core. *)
Record State := {
  dataBuffer : list OutcomeRecord;
  consecutiveWins : nat;
  consecutiveLosses : nat;
  modelWeights : list (string * Q);
  modelPerformance : list (string * Perf);
  lstmCell : option LSTMCell;
  patternDatabase : gmap string Stats;
  markovChains : gmap string Stats;
  trendAnalyzer : TrendAnalyzer;
  marketState : MarketState;
  isTraining : bool
}.

Definition set_dataBuffer (v : list OutcomeRecord) (s : State) : State :=
  {| dataBuffer := v; consecutiveWins := consecutiveWins s;
     consecutiveLosses := consecutiveLosses s; modelWeights := modelWeights s;
     modelPerformance := modelPerformance s; lstmCell := lstmCell s;
     patternDatabase := patternDatabase s; markovChains := markovChains s;
     trendAnalyzer := trendAnalyzer s; marketState := marketState s;
     isTraining := isTraining s |}.

Definition set_weights (w : list (string * Q)) (p : list (string * Perf))
    (s : State) : State :=
  {| dataBuffer := dataBuffer s; consecutiveWins := consecutiveWins s;
     consecutiveLosses := consecutiveLosses s; modelWeights := w;
     modelPerformance := p; lstmCell := lstmCell s;
     patternDatabase := patternDatabase s; markovChains := markovChains s;
     trendAnalyzer := trendAnalyzer s; marketState := marketState s;
     isTraining := isTraining s |}.

Definition set_lstmCell (c : option LSTMCell) (s : State) : State :=
  {| dataBuffer := dataBuffer s; consecutiveWins := consecutiveWins s;
     consecutiveLosses := consecutiveLosses s; modelWeights := modelWeights s;
     modelPerformance := modelPerformance s; lstmCell := c;
     patternDatabase := patternDatabase s; markovChains := markovChains s;
     trendAnalyzer := trendAnalyzer s; marketState := marketState s;
     isTraining := isTraining s |}.

Definition set_patternDatabase (m : gmap string Stats) (s : State) : State :=
  {| dataBuffer := dataBuffer s; consecutiveWins := consecutiveWins s;
     consecutiveLosses := consecutiveLosses s; modelWeights := modelWeights s;
     modelPerformance := modelPerformance s; lstmCell := lstmCell s;
     patternDatabase := m; markovChains := markovChains s;
     trendAnalyzer := trendAnalyzer s; marketState := marketState s;
     isTraining := isTraining s |}.

Definition set_markovChains (m : gmap string Stats) (s : State) : State :=
  {| dataBuffer := dataBuffer s; consecutiveWins := consecutiveWins s;
     consecutiveLosses := consecutiveLosses s; modelWeights := modelWeights s;
     modelPerformance := modelPerformance s; lstmCell := lstmCell s;
     patternDatabase := patternDatabase s; markovChains := m;
     trendAnalyzer := trendAnalyzer s; marketState := marketState s;
     isTraining := isTraining s |}.

Definition set_trendAnalyzer (t : TrendAnalyzer) (s : State) : State :=
  {| dataBuffer := dataBuffer s; consecutiveWins := consecutiveWins s;
     consecutiveLosses := consecutiveLosses s; modelWeights := modelWeights s;
     modelPerformance := modelPerformance s; lstmCell := lstmCell s;
     patternDatabase := patternDatabase s; markovChains := markovChains s;
     trendAnalyzer := t; marketState := marketState s;
     isTraining := isTraining s |}.

Definition set_marketState (m : MarketState) (s : State) : State :=
  {| dataBuffer := dataBuffer s; consecutiveWins := consecutiveWins s;
     consecutiveLosses := consecutiveLosses s; modelWeights := modelWeights s;
     modelPerformance := modelPerformance s; lstmCell := lstmCell s;
     patternDatabase := patternDatabase s; markovChains := markovChains s;
     trendAnalyzer := trendAnalyzer s; marketState := m;
     isTraining := isTraining s |}.

Definition set_isTraining (b : bool) (s : State) : State :=
  {| dataBuffer := dataBuffer s; consecutiveWins := consecutiveWins s;
     consecutiveLosses := consecutiveLosses s; modelWeights := modelWeights s;
     modelPerformance := modelPerformance s; lstmCell := lstmCell s;
     patternDatabase := patternDatabase s; markovChains := markovChains s;
     trendAnalyzer := trendAnalyzer s; marketState := marketState s;
     isTraining := b |}.

(** ** CONFIGURATION and GLOBAL STATE *)

Module CONFIG.
Definition SEQUENCE_LENGTHS : list nat := [3; 4; 5; 6; 7; 8].
Definition MARKOV_ORDER : nat := 3.
Definition INITIAL_WEIGHTS : list (string * Q) :=
  [("pattern", 0.15%Q); ("markov", 0.15%Q); ("frequency", 0.15%Q);
   ("neural", 0.20%Q); ("trend", 0.15%Q); ("quantum", 0.20%Q)].
End CONFIG.

Definition initialState : State :=
  {| dataBuffer := [];
     consecutiveWins := 0;
     consecutiveLosses := 0;
     modelWeights := CONFIG.INITIAL_WEIGHTS;
     modelPerformance :=
       map (λ kv, (fst kv, {| wins := 0; perf_total := 0; recentAccuracy := 0.5%Q |}))
           CONFIG.INITIAL_WEIGHTS;
     lstmCell := None;
     patternDatabase := ∅;
     markovChains := ∅;
     trendAnalyzer := {| shortTerm := []; mediumTerm := []; longTerm := [] |};
     marketState :=
       {| volatility := 0; bias := 0.5%Q; entropy := 0; recentTrend := "NEUTRAL";
          market_confidence := 0.5%Q; lastUpdate := 0; randomnessQuality := 1%Q;
          isExploitable := None |};
     isTraining := false |}.

(** ** Exceptions and state *)

Inductive Completion (A : Type) := Normal (a : A) | Throw.
Arguments Normal {A} a.
Arguments Throw {A}.

Definition Eff (A : Type) : Type := State → Completion A * State.

Module Effects.

Definition ret {A} (a : A) : Eff A := λ s, (Normal a, s).
Definition throw {A} : Eff A := λ s, (Throw, s).
Definition bind {A B} (m : Eff A) (k : A → Eff B) : Eff B :=
  λ s, match m s with
       | (Normal a, s') => k a s'
       | (Throw, s') => (Throw, s')
       end.
Definition get : Eff State := λ s, (Normal s, s).
Definition modify (f : State → State) : Eff unit := λ s, (Normal tt, f s).
(** An expression that throws when it evaluates to [None]. *)
Definition lift {A} (o : option A) : Eff A :=
  match o with Some a => ret a | None => throw end.

(** [for (const x of xs) body(x)] *)
Fixpoint for_of {A} (xs : list A) (body : A → Eff unit) : Eff unit :=
  match xs with
  | [] => ret tt
  | x :: rest => bind (body x) (λ _, for_of rest body)
  end.

(** [try { body } catch (e) { handler } finally { fin }] *)
Definition try_catch_finally {A} (body handler : Eff A) (fin : Eff unit)
    : Eff A :=
  λ s, let '(r, s1) := body s in
       let '(r', s2) := match r with
                        | Normal a => (Normal a, s1)
                        | Throw => handler s1
                        end in
       match fin s2 with
       | (Normal _, s3) => (r', s3)
       | (Throw, s3) => (Throw, s3)
       end.

Notation "'let!' x ':=' m 'in' k" := (bind m (λ x, k))
  (at level 10, x name, m at level 100, k at level 200).
Notation "'do!' m 'in' k" := (bind m (λ _, k))
  (at level 10, m at level 100, k at level 200).

End Effects.
Import Effects.

(** ** JS arrays *)

Module JSArray.

(** [arr.slice(i, j)] *)
Definition slice {A} (i j : nat) (arr : list A) : list A :=
  take (j - i) (drop i arr).

(** [data.map(d => d.f)] on an array of objects: holes stay holes, the
    callback throws on a nullish element. *)
Fixpoint map_field {A B} (f : A → B) (arr : list (Slot A))
    : option (list (option B)) :=
  match arr with
  | [] => Some []
  | Hole :: rest => cons None <$> map_field f rest
  | Nullish :: rest => None
  | Item a :: rest => cons (Some (f a)) <$> map_field f rest
  end.

(** [data[i].f]: throws on a hole, on a nullish element and past the
    end. *)
Definition index_field {A B} (f : A → B) (arr : list (Slot A)) (i : nat)
    : option B :=
  match arr !! i with
  | Some (Item a) => Some (f a)
  | _ => None
  end.

(** [arr.filter(b => b === v).length] on an array of numbers *)
Definition count_eq (v : nat) (arr : list (option nat)) : nat :=
  length (filter (λ b, b = Some v) arr).

(** The string [join] gives an element: holes and [undefined] give the
    empty string. *)
Definition show (x : option nat) : string :=
  match x with Some n => pretty n | None => "" end.

(** [arr.join(sep)] *)
Definition join (sep : string) (arr : list (option nat)) : string :=
  String.concat sep (map show arr).

(** [Math.max(...arr)] on counts (never called on an empty array: every
    counts array is created with ten entries). *)
Definition max_of (arr : list nat) : nat := foldr Nat.max 0 arr.

(** [arr.indexOf(v)], [None] for -1 *)
Fixpoint indexOf (v : nat) (arr : list nat) : option nat :=
  match arr with
  | [] => None
  | x :: rest => if bool_decide (x = v) then Some 0
                 else S <$> indexOf v rest
  end.

Definition dense {A} (l : list A) : list (Slot A) := map Item l.

End JSArray.

(** ** UTILITIES *)

Definition toBigSmall (n : nat) : Label := if bool_decide (5 ≤ n) then BIG else SMALL.
Definition toBinary (n : nat) : nat := if bool_decide (5 ≤ n) then 1 else 0.

(** [toBigSmall(counts.indexOf(maxCount))]: -1 is below 5. *)
Definition toBigSmall_index (i : option nat) : Label :=
  match i with Some n => toBigSmall n | None => SMALL end.

Section Utilities.
Context `{JSMath}.
Local Open Scope Q_scope.

Definition sigmoid (x : Q) : Q :=
  if JSNum.gtb x 700 then 1
  else if JSNum.ltb x (-700) then 0
  else 1 / (1 + Math_exp (- x)).

Definition relu (x : Q) : Q := Qmax 0 x.

(** [reduce] skips holes; [arr.length] counts them. *)
Definition present (arr : list (option nat)) : list Q :=
  omap (λ x, JSNum.ofNat <$> x) arr.

Definition calculateStats (arr : list (option nat)) : Q * Q * Q :=
  match arr with
  | [] => (0, 0, 0)
  | _ =>
    let n := JSNum.ofNat (length arr) in
    let mean := JSNum.sum (present arr) / n in
    let variance :=
      foldl (λ sum val, sum + (val - mean) ^ 2) 0 (present arr) / n in
    (mean, Math_sqrt variance, variance)
  end.

(** The keys of [freq] are the distinct values; [Object.values] lists
    integer keys in ascending order. *)
Definition calculateEntropy (arr : list (option nat)) : Q :=
  match arr with
  | [] => 0
  | _ =>
    let vals := omap id arr in
    let keys := filter (λ v, v ∈ vals) (seq 0 (S (foldr Nat.max 0%nat vals))) in
    foldl (λ entropy v,
             let p := JSNum.ofNat (JSArray.count_eq v arr)
                      / JSNum.ofNat (length arr) in
             if JSNum.gtb p 0 then entropy - p * Math_log2 p else entropy)
          0 keys
  end.

(** The number of indices [i >= 1] with [binary[i] !== binary[i-1]]. *)
Fixpoint changes (prev : option nat) (l : list (option nat)) : nat :=
  match l with
  | [] => 0
  | x :: rest => ((if bool_decide (x = prev) then 0 else 1) + changes x rest)%nat
  end.

Definition performRunsTest (binary : list (option nat)) : Q * Q * Q :=
  if bool_decide (length binary < 10)%nat then (0, 0, 0)
  else
    let runs := match binary with
                | [] => 1%nat
                | b0 :: rest => S (changes b0 rest)
                end in
    let len := JSNum.ofNat (length binary) in
    let n1 := JSArray.count_eq 1 binary in
    let n0 := JSNum.ofNat (length binary) - JSNum.ofNat n1 in
    let n1 := JSNum.ofNat n1 in
    let expected := (2 * n0 * n1) / len + 1 in
    let variance := (2 * n0 * n1 * (2 * n0 * n1 - len))
                    / (len ^ 2 * (len - 1)) in
    let zScore := if JSNum.gtb variance 0
                  then (JSNum.ofNat runs - expected) / Math_sqrt variance
                  else 0 in
    (JSNum.ofNat runs, expected, zScore).

(** [diffs[i] = arr[i+1] - arr[i]]; a difference with a hole on either
    side is a hole or [NaN] and is not counted. *)
Fixpoint highFreq (prev : option nat) (l : list (option nat)) : nat :=
  match l with
  | [] => 0
  | x :: rest =>
    ((match prev, x with
      | Some a, Some b =>
        if JSNum.geb (Qabs (JSNum.ofNat b - JSNum.ofNat a)) 3 then 1 else 0
      | _, _ => 0
      end) + highFreq x rest)%nat
  end.

Definition spectralTest (arr : list (option nat)) : Q :=
  match arr with
  | [] => 0
  | a0 :: rest =>
    JSNum.ofNat (highFreq a0 rest)
    / JSNum.or_default (JSNum.ofNat (length rest)) 1
  end.

Record Randomness := {
  r_entropy : Q; runsZ : Q; spectralBias : Q;
  r_isExploitable : bool; quality : Q
}.

Definition assessRandomnessQuality (binary : list (option nat)) : Randomness :=
  let entropy := calculateEntropy binary in
  let runsTest := performRunsTest binary in
  let spectralBias := spectralTest binary in
  let isExploitable :=
    JSNum.ltb entropy 0.92 && JSNum.gtb (Qabs (snd runsTest)) 1.96 in
  {| r_entropy := entropy; runsZ := snd runsTest; spectralBias := spectralBias;
     r_isExploitable := isExploitable;
     quality := 1 - entropy / 1 |}.

End Utilities.

(** ** DATA MANAGEMENT *)

(** [updateDataBuffer(newData)]: the set of known periods is computed once,
    then every item not in it is [unshift]ed, then the array is cut. *)
Definition updateDataBuffer (newData : list OutcomeRecord)
    (buf : list OutcomeRecord) : list OutcomeRecord :=
  let existingPeriods : gset string := list_to_set (issueNumber <$> buf) in
  let buf' :=
    foldl (λ b item,
             if bool_decide (issueNumber item ∈ existingPeriods) then b
             else item :: b)
          buf newData in
  if bool_decide (200 < length buf') then take 200 buf' else buf'.

Definition updateDataBuffer_st (newData : list OutcomeRecord) : Eff (list OutcomeRecord) :=
  let! s := get in
  let b := updateDataBuffer newData (dataBuffer s) in
  do! modify (set_dataBuffer b) in
  ret b.

(** ** MARKET ANALYSIS *)

Section Market.
Context `{JSMath}.
Local Open Scope Q_scope.

Definition classifyTrend (bigRecent : nat) : string :=
  if bool_decide (7 ≤ bigRecent)%nat then "STRONG_BIG"
  else if bool_decide (6 ≤ bigRecent)%nat then "BIAS_BIG"
  else if bool_decide (bigRecent ≤ 3)%nat then "STRONG_SMALL"
  else if bool_decide (bigRecent ≤ 4)%nat then "BIAS_SMALL"
  else "NEUTRAL".

Definition analyzeMarketState (data : list (Slot OutcomeRecord))
    : Eff MarketState :=
  let! s := get in
  if bool_decide (length data < 30)%nat then ret (marketState s)
  else
    let recent50 := JSArray.slice 0 (Nat.min 50 (length data)) data in
    let! binary := lift (JSArray.map_field binary recent50) in
    let! numbers := lift (JSArray.map_field number recent50) in
    let '(mean, std, _) := calculateStats numbers in
    let volatility := std / (mean + 0.001) in
    let entropy := calculateEntropy binary in
    let bigCount := JSArray.count_eq 1 binary in
    let bias := JSNum.ofNat bigCount / JSNum.ofNat (length binary) in
    let recent10 := JSArray.slice 0 10 binary in
    let bigRecent := JSArray.count_eq 1 recent10 in
    let recentTrend := classifyTrend bigRecent in
    let randomness := assessRandomnessQuality binary in
    let confidence := 1 - Qabs (bias - 0.5) * 2 in
    let ms :=
      {| volatility := volatility;
         bias := bias;
         entropy := entropy;
         recentTrend := recentTrend;
         market_confidence := Qmax 0.3 (Qmin 0.9 confidence);
         randomnessQuality := quality randomness;
         isExploitable := Some (r_isExploitable randomness);
         lastUpdate := Date_now |} in
    do! modify (set_marketState ms) in
    ret ms.

End Market.

(** ** LSTM-LIKE NEURAL NETWORK *)

Record Prediction := { prediction : Label; confidence : Q; source : string }.

Section LSTM.
Context `{JSMath}.
Local Open Scope Q_scope.

Definition initWeight (k : nat) : Q := (Math_random k * 2 - 1) * 0.1.

(** A [rows] x [cols] matrix whose entries are drawn row by row, the
    first one by the [off]-th call of [Math.random]. *)
Definition randomMatrix (off rows cols : nat) : list (list Q) :=
  map (λ r, map (λ c, initWeight (off + r * cols + c)%nat) (seq 0 cols))
      (seq 0 rows).

Definition createLSTMCell (inputSize hiddenSize : nat) : LSTMCell :=
  let wsz := (hiddenSize * inputSize)%nat in
  let usz := (hiddenSize * hiddenSize)%nat in
  {| Wi := randomMatrix 0 hiddenSize inputSize;
     Wf := randomMatrix wsz hiddenSize inputSize;
     Wo := randomMatrix (2 * wsz) hiddenSize inputSize;
     Wc := randomMatrix (3 * wsz) hiddenSize inputSize;
     Ui := randomMatrix (4 * wsz) hiddenSize hiddenSize;
     Uf := randomMatrix (4 * wsz + usz) hiddenSize hiddenSize;
     Uo := randomMatrix (4 * wsz + 2 * usz) hiddenSize hiddenSize;
     Uc := randomMatrix (4 * wsz + 3 * usz) hiddenSize hiddenSize;
     bi := replicate hiddenSize 0;
     bf := replicate hiddenSize 0;
     bo := replicate hiddenSize 0;
     bc := replicate hiddenSize 0;
     hidden := replicate hiddenSize 0;
     cell := replicate hiddenSize 0 |}.

(** [row.reduce((sum, w, i) => sum + w * v[i], 0)].  Where [v] is shorter
    than [row] JS adds [NaN]; the rows of a cell made by [createLSTMCell]
    are as long as the vectors they meet, so the model leaves the missing
    operand at 0.  The same goes for [b[j]] and [cPrev[j]] below. *)
Fixpoint dot (row v : list Q) : Q → Q :=
  λ sum, match row with
         | [] => sum
         | w :: row' => dot row' (tail v) (sum + w * default 0 (head v))
         end.

(** One gate: [f(W[j]·input + U[j]·hPrev + b[j])]; [W[j]] or [U[j]]
    missing is a [TypeError]. *)
Definition gate (f : Q → Q) (W U : list (list Q)) (b : list Q)
    (input hPrev : list Q) (j : nat) : option Q :=
  w ← W !! j;
  u ← U !! j;
  Some (f (dot w input 0 + dot u hPrev 0 + default 0 (b !! j))).

Definition forwardLSTM_unit (c : LSTMCell) (input : list Q) (j : nat)
    : option (Q * Q) :=
  let hPrev := hidden c in
  let cPrev := cell c in
  inputGate ← gate sigmoid (Wi c) (Ui c) (bi c) input hPrev j;
  forgetGate ← gate sigmoid (Wf c) (Uf c) (bf c) input hPrev j;
  candidate ← gate Math_tanh (Wc c) (Uc c) (bc c) input hPrev j;
  let newC := forgetGate * default 0 (cPrev !! j) + inputGate * candidate in
  outputGate ← gate sigmoid (Wo c) (Uo c) (bo c) input hPrev j;
  let newH := outputGate * Math_tanh newC in
  Some (newH, newC).

(** Returns the new hidden vector and the cell with [hidden] and [cell]
    replaced; a throw inside the loop leaves the cell as it was. *)
Definition forwardLSTM (c : LSTMCell) (input : list Q)
    : option (list Q * LSTMCell) :=
  units ← mapM (forwardLSTM_unit c input) (seq 0 (length (hidden c)));
  let newHidden := map fst units in
  let newCell := map snd units in
  Some (newHidden,
        {| Wi := Wi c; Wf := Wf c; Wo := Wo c; Wc := Wc c;
           Ui := Ui c; Uf := Uf c; Uo := Uo c; Uc := Uc c;
           bi := bi c; bf := bf c; bo := bo c; bc := bc c;
           hidden := newHidden; cell := newCell |}).

Definition predictWithLSTM (data : list OutcomeRecord) : Eff Prediction :=
  let! s := get in
  match lstmCell s with
  | None =>
    do! modify (set_lstmCell (Some (createLSTMCell 20 15))) in
    ret {| prediction := BIG; confidence := 0.50; source := "lstm_uninitialized" |}
  | Some c =>
    let binary := map binary data in
    if bool_decide (length binary < 20)%nat then
      ret {| prediction := BIG; confidence := 0.50; source := "lstm_insufficient" |}
    else
      let input := JSArray.slice 0 20 binary in
      let! fwd := lift (forwardLSTM c (map JSNum.ofNat input)) in
      let '(hidden, c') := fwd in
      do! modify (set_lstmCell (Some c')) in
      let outputSum := JSNum.sum hidden in
      let output := sigmoid (outputSum / JSNum.ofNat (length hidden)) in
      let confidence := Qabs (output - 0.5) * 2 in
      ret {| prediction := if JSNum.geb output 0.5 then BIG else SMALL;
             confidence := Qmin (confidence + 0.10) 0.80;
             source := "lstm" |}
  end.

End LSTM.

(** ** MODEL TRAINING *)

Definition newStats : Stats := {| counts := replicate 10 0; total := 0 |}.

(** [stats.counts[next]++]: with [next] undefined the increment lands on a
    non-index property and the ten counters stay as they are.  [next] is
    a digit, [fetchData] lets 0..9 through only; for a larger index JS
    would grow the array and store [NaN], which the model leaves out. *)
Definition incrCount (next : option nat) (cs : list nat) : list nat :=
  match next with
  | Some n => alter S n cs
  | None => cs
  end.

(** The body shared by both training loops: create the entry when the key
    is new, then count [next]. *)
Definition record (key : string) (next : option nat) (tbl : gmap string Stats)
    : gmap string Stats :=
  let tbl := match tbl !! key with
             | Some _ => tbl
             | None => <[key := newStats]> tbl
             end in
  match tbl !! key with
  | Some stats =>
    <[key := {| counts := incrCount next (counts stats);
                total := S (total stats) |}]> tbl
  | None => tbl
  end.

Definition patternLoop (numbers : list (option nat)) : gmap string Stats :=
  foldl (λ tbl len,
           foldl (λ tbl i,
                    let pattern := JSArray.join "" (JSArray.slice i (i + len) numbers) in
                    let next := mjoin (numbers !! (i + len)) in
                    record pattern next tbl)
                 tbl (seq 0 (length numbers - len)))
        ∅ CONFIG.SEQUENCE_LENGTHS.

Definition trainPatternRecognition (data : list (Slot OutcomeRecord)) : Eff unit :=
  let! numbers := lift (JSArray.map_field number data) in
  do! modify (set_patternDatabase ∅) in
  modify (set_patternDatabase (patternLoop numbers)).

Definition trainMarkovChains (data : list (Slot OutcomeRecord)) : Eff unit :=
  do! modify (set_markovChains ∅) in
  for_of (seq 1 CONFIG.MARKOV_ORDER) (λ order,
    for_of (seq 0 (length data - order)) (λ i,
      let! digits := lift (JSArray.map_field number (JSArray.slice i (i + order) data)) in
      let state := JSArray.join "-" digits in
      let! next := lift (JSArray.index_field number data (i + order)) in
      modify (λ s, set_markovChains (record state (Some next) (markovChains s)) s))).

Definition trainTrendAnalyzer (data : list (Slot OutcomeRecord)) : Eff unit :=
  let! binary := lift (JSArray.map_field binary data) in
  modify (set_trendAnalyzer
            {| shortTerm := JSArray.slice 0 10 binary;
               mediumTerm := JSArray.slice 0 30 binary;
               longTerm := JSArray.slice 0 60 binary |}).

Section Trainer.
Context `{JSMath}.

(** The [try] block of [trainAllModels].  The three arguments of
    [Promise.all] are evaluated left to right, each call running to
    completion before the next starts. *)
Definition trainingPass (data : list (Slot OutcomeRecord)) : Eff bool :=
  do! trainPatternRecognition data in
  do! trainMarkovChains data in
  do! trainTrendAnalyzer data in
  do! analyzeMarketState data in
  ret true.

Definition trainAllModels (data : list (Slot OutcomeRecord)) : Eff bool :=
  let! s := get in
  if isTraining s then ret false
  else
    do! modify (set_isTraining true) in
    try_catch_finally (trainingPass data) (ret false)
                      (modify (set_isTraining false)).

End Trainer.

(** ** PREDICTION ALGORITHMS *)

Section Predictors.
Context `{JSMath}.
Local Open Scope Q_scope.

Definition countBig (l : list OutcomeRecord) : nat :=
  length (filter (λ d, bigSmall d = BIG) l).

(** What one window length contributes in [predictWithPatterns]: the
    confidence and the label of its candidate, when it has one. *)
Definition patternCandidate (db : gmap string Stats) (numbers : list nat)
    (len : nat) : option (Q * Label) :=
  if bool_decide (length numbers < len + 1)%nat then None
  else
    let recentPattern := JSArray.join "" (Some <$> JSArray.slice 0 len numbers) in
    match db !! recentPattern with
    | Some stats =>
      if bool_decide (3 ≤ total stats)%nat then
        let maxCount := JSArray.max_of (counts stats) in
        let predNum := JSArray.indexOf maxCount (counts stats) in
        let conf := JSNum.ofNat maxCount / JSNum.ofNat (total stats) in
        Some (conf, toBigSmall_index predNum)
      else None
    | None => None
    end.

(** The loop body: [if (conf > bestConf) { bestConf = conf; bestPred = ... }] *)
Definition patternStep (db : gmap string Stats) (numbers : list nat)
    (best : Q * option Label) (len : nat) : Q * option Label :=
  match patternCandidate db numbers len with
  | Some (conf, pred) =>
    if JSNum.gtb conf (fst best) then (conf, Some pred) else best
  | None => best
  end.

Definition predictWithPatterns (db : gmap string Stats)
    (data : list OutcomeRecord) : Prediction :=
  let numbers := map number data in
  let '(bestConf, bestPred) :=
    foldl (patternStep db numbers) (0, None) CONFIG.SEQUENCE_LENGTHS in
  match bestPred with
  | Some p => {| prediction := p; confidence := bestConf; source := "pattern" |}
  | None =>
    let recentBig := countBig (JSArray.slice 0 10 data) in
    {| prediction := if bool_decide (5 ≤ recentBig)%nat then BIG else SMALL;
       confidence := 0.52;
       source := "pattern_fallback" |}
  end.

Definition markovCandidate (chains : gmap string Stats)
    (data : list OutcomeRecord) (order : nat) : option Prediction :=
  if bool_decide (length data < order + 1)%nat then None
  else
    let state := JSArray.join "-" (Some <$> map number (JSArray.slice 0 order data)) in
    match chains !! state with
    | Some stats =>
      if bool_decide (2 ≤ total stats)%nat then
        let maxCount := JSArray.max_of (counts stats) in
        let predNum := JSArray.indexOf maxCount (counts stats) in
        let conf := JSNum.ofNat maxCount / JSNum.ofNat (total stats) in
        Some {| prediction := toBigSmall_index predNum;
                confidence := conf;
                source := "markov_order" +:+ pretty order |}
      else None
    | None => None
    end.

(** [for (order = MARKOV_ORDER; order >= 1; order--)], returning at the
    first order that has a candidate. *)
Fixpoint markovLoop (chains : gmap string Stats) (data : list OutcomeRecord)
    (order : nat) : option Prediction :=
  match order with
  | O => None
  | S order' =>
    match markovCandidate chains data order with
    | Some p => Some p
    | None => markovLoop chains data order'
    end
  end.

(** [None] is the [TypeError] of [data[0].bigSmall] on an empty array. *)
Definition predictWithMarkov (chains : gmap string Stats)
    (data : list OutcomeRecord) : option Prediction :=
  match markovLoop chains data CONFIG.MARKOV_ORDER with
  | Some p => Some p
  | None =>
    d0 ← data !! 0%nat;
    let lastBigSmall := bigSmall d0 in
    Some {| prediction := if Label_eqb lastBigSmall BIG then SMALL else BIG;
            confidence := 0.51;
            source := "markov_fallback" |}
  end.

Record WindowVote := { w_prediction : Label; w_confidence : Q; weight : Q }.

Definition frequencyWindow (data : list OutcomeRecord) (window : nat)
    : option WindowVote :=
  if bool_decide (length data < window)%nat then None
  else
    let recent := JSArray.slice 0 window data in
    let bigCount := countBig recent in
    let ratio := JSNum.ofNat bigCount / JSNum.ofNat window in
    Some {| w_prediction :=
              if JSNum.geb (JSNum.ofNat bigCount) (JSNum.ofNat window / 2)
              then BIG else SMALL;
            w_confidence := Qabs (ratio - 0.5) * 2;
            weight := 1 / JSNum.ofNat window |}.

Definition sideScore (side : Label) (predictions : list WindowVote) : Q :=
  foldl (λ sum p, sum + w_confidence p * weight p) 0
        (filter (λ p, w_prediction p = side) predictions).

Definition predictWithFrequency (data : list OutcomeRecord) : Prediction :=
  let windows := [10; 20; 30]%nat in
  let predictions := omap (frequencyWindow data) windows in
  match predictions with
  | [] => {| prediction := BIG; confidence := 0.50; source := "frequency_insufficient" |}
  | _ =>
    let bigScore := sideScore BIG predictions in
    let smallScore := sideScore SMALL predictions in
    let totalScore := bigScore + smallScore in
    let finalConf := if JSNum.gtb totalScore 0
                     then Qmax bigScore smallScore / totalScore else 0.5 in
    {| prediction := if JSNum.gtb bigScore smallScore then BIG else SMALL;
       confidence := Qmin (finalConf + 0.05) 0.75;
       source := "frequency" |}
  end.

(** [bits.filter(b => b === 1).length / (bits.length || 1)] *)
Definition bigRatio (bits : list (option nat)) : Q :=
  JSNum.ofNat (JSArray.count_eq 1 bits)
  / JSNum.or_default (JSNum.ofNat (length bits)) 1.

Definition predictWithTrend (t : TrendAnalyzer) : Prediction :=
  let shortRatio := bigRatio (shortTerm t) in
  let mediumRatio := bigRatio (mediumTerm t) in
  let longRatio := bigRatio (longTerm t) in
  let deviation := Qabs (shortRatio - mediumRatio) in
  let '(prediction, confidence) :=
    if JSNum.gtb deviation 0.3 then
      (if JSNum.gtb shortRatio mediumRatio then SMALL else BIG,
       Qmin (deviation + 0.20) 0.75)
    else
      let avgRatio := shortRatio * 0.5 + mediumRatio * 0.3 + longRatio * 0.2 in
      (if JSNum.geb avgRatio 0.5 then BIG else SMALL,
       Qabs (avgRatio - 0.5) * 2 + 0.05) in
  {| prediction := prediction;
     confidence := Qmax 0.52 (Qmin confidence 0.78);
     source := "trend" |}.

Definition predictWithQuantum (ms : MarketState) (data : list OutcomeRecord)
    : Prediction :=
  let binary := map binary data in
  let pBig := JSNum.ofNat (length (filter (λ b, b = 1%nat) binary))
              / JSNum.ofNat (length binary) in
  let pSmall := 1 - pBig in
  let alpha := Math_sqrt pBig in
  let beta := Math_sqrt pSmall in
  let decoherence := 1 - entropy ms in
  let observedP := (alpha * alpha) * decoherence + 0.5 * (1 - decoherence) in
  let confidence := Qabs (observedP - 0.5) * 2 + 0.05 in
  {| prediction := if JSNum.geb observedP 0.5 then BIG else SMALL;
     confidence := Qmin confidence 0.80;
     source := "quantum" |}.

End Predictors.

(** ** Recovery mode *)

Inductive RecoveryMode := MARTINGALE_SAFE | CAUTION | ANTI_TREND | NORMAL.

Definition RecoveryMode_name (m : RecoveryMode) : string :=
  match m with
  | MARTINGALE_SAFE => "MARTINGALE_SAFE"
  | CAUTION => "CAUTION"
  | ANTI_TREND => "ANTI_TREND"
  | NORMAL => "NORMAL"
  end.

(** [s.includes(sub)] *)
Definition includes (s sub : string) : bool :=
  match String.index 0 sub s with Some _ => true | None => false end.

(** The truth value of [marketState.isExploitable]; [undefined] is falsy. *)
Definition exploitable (ms : MarketState) : bool :=
  match isExploitable ms with Some b => b | None => false end.

Definition getRecoveryMode (s : State) : RecoveryMode :=
  let ms := marketState s in
  if bool_decide (3 ≤ consecutiveLosses s) && JSNum.ltb (volatility ms) 0.5%Q
  then MARTINGALE_SAFE
  else if bool_decide (2 ≤ consecutiveLosses s) && negb (exploitable ms)
  then CAUTION
  else if bool_decide (2 ≤ consecutiveLosses s) && includes (recentTrend ms) "STRONG"
  then ANTI_TREND
  else NORMAL.

Definition flipLabel (l : Label) : Label :=
  if Label_eqb l BIG then SMALL else BIG.

Definition applyRecoveryMode (basePrediction : Label) (mode : RecoveryMode) : Label :=
  match mode with
  | ANTI_TREND => flipLabel basePrediction
  | _ => basePrediction
  end.

(** ** ENSEMBLE PREDICTION *)

Inductive Tier := ULTRA_HIGH | HIGH | MEDIUM | LOW | VERY_LOW.

Record EnsembleDecision := {
  d_prediction : Label;
  d_confidence : Z;
  tier : Tier;
  recommendation : string;
  agreement : Z;
  marketCondition : string;
  modelOutputs : list (string * Prediction);
  weights : list (string * Q);
  reasoning : string
}.

(** [obj[key]] on a dictionary object *)
Fixpoint lookupKey {V} (key : string) (obj : list (string * V)) : option V :=
  match obj with
  | [] => None
  | (k, v) :: rest => if bool_decide (k = key) then Some v else lookupKey key rest
  end.

Section Ensemble.
Context `{JSMath}.
Local Open Scope Q_scope.

(** The six predictors, called in the order the object literal lists
    them. *)
Definition runPredictors (data : list OutcomeRecord)
    : Eff (list (string * Prediction)) :=
  let! s := get in
  let pattern := predictWithPatterns (patternDatabase s) data in
  let! markov := lift (predictWithMarkov (markovChains s) data) in
  let frequency := predictWithFrequency data in
  let! neural := predictWithLSTM data in
  let trend := predictWithTrend (trendAnalyzer s) in
  let quantum := predictWithQuantum (marketState s) data in
  ret [("pattern", pattern); ("markov", markov); ("frequency", frequency);
       ("neural", neural); ("trend", trend); ("quantum", quantum)].

(** [(bigScore, smallScore)] after the scoring loop *)
Definition ensembleScores (modelWeights : list (string * Q))
    (predictions : list (string * Prediction)) : Q * Q :=
  foldl (λ acc mp,
           let '(bigScore, smallScore) := acc in
           let '(model, pred) := mp in
           let weight := JSNum.or_default
                           (default 0 (lookupKey model modelWeights)) 0.15 in
           let score := JSNum.or_default (confidence pred) 0.5 * weight in
           if Label_eqb (prediction pred) BIG then (bigScore + score, smallScore)
           else (bigScore, smallScore + score))
        (0, 0) predictions.

Definition rawPredictionOf (scores : Q * Q) : Label :=
  if JSNum.gtb (fst scores) (snd scores) then BIG else SMALL.

Definition rawConfidenceOf (scores : Q * Q) : Q :=
  let totalScore := fst scores + snd scores in
  if JSNum.gtb totalScore 0 then Qmax (fst scores) (snd scores) / totalScore
  else 0.5.

Definition agreementOf (predictions : list (string * Prediction)) : Q :=
  let votes := map snd predictions in
  let bigVotes := length (filter (λ p, prediction p = BIG) votes) in
  if bool_decide (0 < length votes)%nat
  then JSNum.ofNat (Nat.max bigVotes (length votes - bigVotes))
       / JSNum.ofNat (length votes)
  else 0.5.

(** The confidence shaping, from [rawConfidence] to the clamped
    [finalConfidence]. *)
Definition shapeConfidence (s : State) (agreement rawConfidence : Q) : Q :=
  let finalConfidence := rawConfidence in
  let finalConfidence :=
    if JSNum.geb agreement 0.8 then finalConfidence + 0.08
    else if JSNum.geb agreement 0.6 then finalConfidence + 0.04
    else finalConfidence in
  let finalConfidence :=
    if negb (exploitable (marketState s)) then finalConfidence * 0.85
    else finalConfidence in
  let finalConfidence :=
    if JSNum.gtb (volatility (marketState s)) 0.6 then finalConfidence * 0.90
    else finalConfidence in
  let finalConfidence :=
    if bool_decide (5 ≤ consecutiveWins s)%nat then finalConfidence + 0.05
    else finalConfidence in
  let finalConfidence :=
    if bool_decide (1 ≤ consecutiveLosses s)%nat then finalConfidence - 0.05
    else finalConfidence in
  Qmax 0.50 (Qmin 0.92 finalConfidence).

Definition tierOf (conf agreement : Q) : Tier * string :=
  if JSNum.geb conf 78 && JSNum.geb agreement 0.8 then
    (ULTRA_HIGH, "💎💎 MAX CONFIDENCE")
  else if JSNum.geb conf 70 && JSNum.geb agreement 0.7 then
    (HIGH, "🎯 HIGH CONFIDENCE")
  else if JSNum.geb conf 63 && JSNum.geb agreement 0.6 then
    (MEDIUM, "✅ MEDIUM CONFIDENCE")
  else if JSNum.geb conf 55 then
    (LOW, "⚠️ LOW CONFIDENCE")
  else
    (VERY_LOW, "🔴 VERY LOW - PROCEED WITH CAUTION").

Definition reasonsOf (s : State) (agreement : Q) (recoveryMode : RecoveryMode)
    : list string :=
  let reasons :=
    (if exploitable (marketState s) then ["Exploitable randomness detected"] else [])
    ++ (if JSNum.geb agreement 0.7 then ["Strong model consensus"] else [])
    ++ (if bool_decide (5 ≤ consecutiveWins s)%nat then ["High-win streak active"] else [])
    ++ (match recoveryMode with
        | NORMAL => []
        | m => ["Recovery mode: " +:+ RecoveryMode_name m]
        end) in
  match reasons with
  | [] => ["Default prediction based on ensemble"]
  | _ => reasons
  end.

(** Everything [generateEnsemblePrediction] does after the six calls. *)
Definition aggregate (s : State) (predictions : list (string * Prediction))
    : EnsembleDecision :=
  let scores := ensembleScores (modelWeights s) predictions in
  let rawPrediction := rawPredictionOf scores in
  let rawConfidence := rawConfidenceOf scores in
  let agreement := agreementOf predictions in
  let finalConfidence := shapeConfidence s agreement rawConfidence in
  let recoveryMode := getRecoveryMode s in
  let finalPrediction := applyRecoveryMode rawPrediction recoveryMode in
  let conf := finalConfidence * 100 in
  let '(tier, recommendation) := tierOf conf agreement in
  {| d_prediction := finalPrediction;
     d_confidence := JSNum.round (finalConfidence * 100);
     tier := tier;
     recommendation := recommendation;
     agreement := JSNum.round (agreement * 100);
     marketCondition := recentTrend (marketState s);
     modelOutputs := predictions;
     weights := modelWeights s;
     reasoning := String.concat "; " (reasonsOf s agreement recoveryMode) +:+ "." |}.

Definition generateEnsemblePrediction (data : list OutcomeRecord)
    : Eff EnsembleDecision :=
  let! predictions := runPredictors data in
  let! s := get in
  ret (aggregate s predictions).

End Ensemble.

(** ** MODEL WEIGHT UPDATE *)

Section Weights.
Local Open Scope Q_scope.

(** [obj[key] = v]: an existing key keeps its place, a new one goes
    last. *)
Fixpoint assignKey {V} (key : string) (v : V) (obj : list (string * V))
    : list (string * V) :=
  match obj with
  | [] => [(key, v)]
  | (k, x) :: rest =>
    if bool_decide (k = key) then (k, v) :: rest
    else (k, x) :: assignKey key v rest
  end.

Definition updatePerf (wasCorrect : bool) (perf : Perf) : Perf :=
  {| perf_total := S (perf_total perf);
     wins := if wasCorrect then S (wins perf) else wins perf;
     recentAccuracy :=
       recentAccuracy perf * 0.9 + (if wasCorrect then 1 else 0) * 0.1 |}.

Definition totalPerformanceOf (mp : list (string * Perf)) : Q :=
  foldl (λ sum p, sum + JSNum.or_default (recentAccuracy (snd p)) 0.5) 0 mp.

(** The blending loop.  A weight is [None] when it is [NaN]: that is
    what [undefined * 0.7 + ...] gives for a model that has a performance
    entry and no weight. *)
Definition blendWeights (mp : list (string * Perf)) (totalPerformance : Q)
    (mw : list (string * option Q)) : list (string * option Q) :=
  foldl (λ mw mpp,
           let '(model, p) := mpp in
           let newWeight :=
             JSNum.or_default (recentAccuracy p) 0.5 / totalPerformance in
           assignKey model
             (w ← mjoin (lookupKey model mw); Some (w * 0.7 + newWeight * 0.3))
             mw)
        mw mp.

(** [Object.values(modelWeights).reduce((a, b) => a + b, 0)], [None] for
    [NaN]. *)
Definition totalWeightOf (mw : list (string * option Q)) : option Q :=
  foldl (λ a kv, x ← a; b ← snd kv; Some (x + b)) (Some 0) mw.

(** [totalWeight > 0 ? w / totalWeight : 0.15]; the comparison is false
    for [NaN]. *)
Definition renormalize (totalWeight : option Q) (mw : list (string * option Q))
    : list (string * Q) :=
  map (λ kv,
         (fst kv,
          match totalWeight, snd kv with
          | Some t, Some w => if JSNum.gtb t 0 then w / t else 0.15
          | _, _ => 0.15
          end))
      mw.

Definition updateModelWeights (modelName : string) (wasCorrect : bool)
    (s : State) : State :=
  match lookupKey modelName (modelPerformance s) with
  | None => s
  | Some perf =>
    let mp := assignKey modelName (updatePerf wasCorrect perf)
                        (modelPerformance s) in
    let totalPerformance := totalPerformanceOf mp in
    let mw := blendWeights mp totalPerformance
                (map (λ kv, (fst kv, Some (snd kv))) (modelWeights s)) in
    let totalWeight := totalWeightOf mw in
    set_weights (renormalize totalWeight mw) mp s
  end.

End Weights.

(** ** A sequence of ingests *)

Definition ingestAll (batches : list (list OutcomeRecord))
    (buf : list OutcomeRecord) : list OutcomeRecord :=
  foldl (λ b newData, updateDataBuffer newData b) buf batches.

(** The records of a batch that [updateDataBuffer] inserts: those whose
    period is not in the buffer as it was when the call started. *)
Definition freshOf (buf newData : list OutcomeRecord) : list OutcomeRecord :=
  filter (λ item, issueNumber item ∉ issueNumber <$> buf) newData.

(** ** A runtime to evaluate the model on examples

    Rational stand-ins for the transcendental functions (truncated series
    and Newton steps) and a fixed pseudo-random sequence.  The theorems
    hold for every [JSMath]; this instance is what the examples run on. *)

Module RefMath.

Local Open Scope Q_scope.

(** Horner form of the Taylor polynomial of degree 12. *)
Definition exp (x : Q) : Q :=
  Qred (foldr (λ k acc, 1 + x * acc / JSNum.ofNat k) 1 (seq 1 12)).

Definition tanh (x : Q) : Q :=
  let e := exp (2 * x) in Qred ((e - 1) / (e + 1)).

(** Five Newton steps from [(x + 1) / 2]. *)
Definition sqrt (x : Q) : Q :=
  if Qle_bool x 0 then 0
  else foldl (λ y _, Qred ((y + x / y) / 2)) (Qred ((x + 1) / 2)) (seq 0 5).

(** [ln x = 2 atanh ((x - 1) / (x + 1))], eight terms of the series. *)
Definition ln (x : Q) : Q :=
  let z := (x - 1) / (x + 1) in
  Qred (2 * foldr (λ k acc, z ^ Z.of_nat (2 * k + 1) / JSNum.ofNat (2 * k + 1) + acc)
                  0 (seq 0 8)).

Definition log2 (x : Q) : Q := Qred (ln x / ln 2).

(** A linear congruential sequence in [0, 1). *)
Definition random (k : nat) : Q :=
  inject_Z ((Z.of_nat k * 7919 + 104729) mod 1000) / 1000.

#[global] Instance refMath : JSMath :=
  {| Math_exp := exp; Math_tanh := tanh; Math_sqrt := sqrt; Math_log2 := log2;
     Math_random := random; Date_now := 1700000000000 |}.

End RefMath.

(** ** Sample data *)

Module Sample.

(** The record [fetchData] builds for period [issue] and digit [n]. *)
Definition draw (issue : string) (n : nat) : OutcomeRecord :=
  {| issueNumber := issue; number := n; bigSmall := toBigSmall n;
     binary := toBinary n; timestamp := 0 |}.

Definition r1 : OutcomeRecord := draw "20240101001" 7.
Definition r2 : OutcomeRecord := draw "20240101002" 2.
Definition r3 : OutcomeRecord := draw "20240101003" 5.
(** A second record for the period of [r3]. *)
Definition r3' : OutcomeRecord := draw "20240101003" 9.

(** A market that looks exploitable, with a strong recent trend. *)
Definition exploitableMarket : MarketState :=
  {| volatility := 0.55%Q; bias := 0.7%Q; entropy := 0.88%Q;
     recentTrend := "STRONG_BIG"; market_confidence := 0.6%Q;
     lastUpdate := 1700000000000; randomnessQuality := 0.12%Q;
     isExploitable := Some true |}.

(** Two losses in a row on that market. *)
Definition losing : State :=
  {| dataBuffer := [r1; r2]; consecutiveWins := 0; consecutiveLosses := 2;
     modelWeights := modelWeights initialState;
     modelPerformance := modelPerformance initialState;
     lstmCell := None; patternDatabase := ∅; markovChains := ∅;
     trendAnalyzer := trendAnalyzer initialState;
     marketState := exploitableMarket; isTraining := false |}.


(** Six draws of the digit 7. *)
Definition sevens : list OutcomeRecord :=
  imap (λ i n, draw ("2024010200" +:+ pretty i) n) (replicate 6 7).

(** The state after training on [sevens], on an exploitable market. *)
Definition unanimous : State :=
  snd (trainAllModels (JSArray.dense sevens)
         (set_marketState exploitableMarket
            (set_dataBuffer sevens initialState))).

(** What the six predictors answer there. *)
Definition unanimousOutputs : list (string * Prediction) :=
  Eval vm_compute in
    match fst (runPredictors sevens unanimous) with
    | Normal predictions => predictions
    | Throw => []
    end.

(** A sparse array: index 1 was never assigned. *)
Definition sparse : list (Slot OutcomeRecord) := [Item r1; Hole; Item r2].

(** An array with an [undefined] element. *)
Definition withUndefined : list (Slot OutcomeRecord) :=
  [Item r1; Nullish; Item r2].

End Sample.

(** ** Named results *)



(** ** A buffer on which two window lengths tie *)

Module Tie.

(** Three rounds of 7, 2, 5, 1, 8, newest first. *)
Definition digits : list nat := [7; 2; 5; 1; 8; 7; 2; 5; 1; 8; 7; 2; 5; 1; 8].

Definition data : list OutcomeRecord :=
  imap (λ i n, Sample.draw ("2024010100" +:+ pretty i) n) digits.

(** The pattern table [trainPatternRecognition] builds from that buffer. *)
Definition db : gmap string Stats := patternLoop (Some <$> map number data).

End Tie.

(** ** Weights a run can reach *)


(** What every state of a run satisfies: no weight and no recent accuracy
    is negative, and every model with a performance entry has a weight. *)
Definition weightsWellFormed (s : State) : Prop :=
  Forall (λ kv, (0 <= snd kv)%Q) (modelWeights s)
  ∧ Forall (λ kp, (0 <= recentAccuracy (snd kp))%Q) (modelPerformance s)
  ∧ Forall (λ kp, fst kp ∈ map fst (modelWeights s)) (modelPerformance s).

(** The state after a sequence of resolved outcomes. *)
Definition adapt (calls : list (string * bool)) (s : State) : State :=
  foldl (λ s c, updateModelWeights (fst c) (snd c) s) s calls.

(** ** Auxiliary definitions for the proofs *)

(** The weights as the blending loop sees them when all are numbers. *)
Definition wrap (l : list (string * Q)) : list (string * option Q) :=
  map (λ kv, (fst kv, Some (snd kv))) l.

(** One turn of the blending loop on weights that are all numbers. *)
Fixpoint blend1 (model : string) (newWeight : Q) (l : list (string * Q))
    : list (string * Q) :=
  match l with
  | [] => []
  | (k, w) :: rest =>
    if bool_decide (k = model) then (k, (w * 0.7 + newWeight * 0.3)%Q) :: rest
    else (k, w) :: blend1 model newWeight rest
  end.

(** [newWeight] of a model in the blending loop. *)
Definition newWeightOf (totalPerformance : Q) (p : Perf) : Q :=
  (JSNum.or_default (recentAccuracy p) 0.5 / totalPerformance)%Q.

(** Every candidate among [lens] has a confidence related by [R] to
    [conf]. *)
Definition candidatesAll (db : gmap string Stats) (numbers : list nat)
    (R : Q → Q → Prop) (conf : Q) (lens : list nat)
    : Prop :=
  Forall (λ len, match patternCandidate db numbers len with
                 | Some (c, _) => R c conf
                 | None => True
                 end) lens.

(** ** More auxiliary definitions for the proofs *)



(** No element of the array is [null] or [undefined]. *)
Definition noNullish {A} (arr : list (Slot A)) : Prop :=
  Forall (λ x, x ≠ Nullish) arr.

(** ** Bookkeeping of outcomes, table shape and period sync *)

(** The number of resolved outcomes of [model] among [calls], and of the
    correct ones. *)
Definition outcomesOf (model : string) (calls : list (string * bool)) : nat :=
  length (filter (λ c, fst c = model) calls).

Definition correctOf (model : string) (calls : list (string * bool)) : nat :=
  length (filter (λ c, fst c = model ∧ snd c = true) calls).


(** A table entry as training leaves it: ten counters, none above the
    total, and at least one occurrence. *)
Definition statsOK (st : Stats) : Prop :=
  length (counts st) = 10
  ∧ JSArray.max_of (counts st) ≤ total st
  ∧ 1 ≤ total st.

#[global] Instance statsOK_dec (st : Stats) : Decision (statsOK st).
Proof. unfold statsOK. apply _. Defined.

Definition tableOK (tbl : gmap string Stats) : Prop :=
  map_Forall (λ _ st, statsOK st) tbl.

#[global] Instance tableOK_dec (tbl : gmap string Stats) : Decision (tableOK tbl).
Proof. unfold tableOK. apply _. Defined.

(** The windows [trainTrendAnalyzer] cuts from the bits of a buffer. *)
Definition trendWindows (l : list OutcomeRecord) : TrendAnalyzer :=
  let bits := map (λ d, Some (binary d)) l in
  {| shortTerm := take 10 bits; mediumTerm := take 30 bits;
     longTerm := take 60 bits |}.

(** An effect that reads and writes the Markov table only. *)
Definition tableEff (e : Eff unit) : Prop :=
  ∃ f : gmap string Stats → Completion unit * gmap string Stats,
    ∀ s, e s = (fst (f (markovChains s)),
                set_markovChains (snd (f (markovChains s))) s).

(** An element of an array of bits; a hole compares unequal to
    everything. *)
Definition isBit (x : option nat) : Prop :=
  match x with Some b => (b ≤ 1)%nat | None => True end.

(** The answer of the order-3 chain on the table trained on six sevens. *)
Definition markovOrder3 : Prediction :=
  {| prediction := BIG; confidence := (3 # 3)%Q; source := "markov_order3" |}.

(** ** Period sync *)

(** An entry of [predictionHistory], by the two fields [syncPeriods]
    reads. *)
Record PredictionEntry := { period : string; status : string }.

(** The two globals [syncPeriods] works on. *)
Record SyncState := {
  predictionHistory : list PredictionEntry;
  seenPeriods : gset string
}.

Section PeriodSync.
(** [calculateNextPeriod] is called by [syncPeriods] and defined in a part
    of the program that is not in the source file. *)
Variable calculateNextPeriod : string → string.

Definition isResolved (p : PredictionEntry) : Prop := status p ≠ "Pending".

(** [lastPredicted && lastPredicted !== expectedNext]: the empty string is
    falsy. *)
Definition syncPeriods (latestData : list OutcomeRecord) (st : SyncState)
    : SyncState :=
  match latestData, predictionHistory st with
  | [], _ => st
  | _, [] => st
  | d0 :: _, p0 :: _ =>
    let latestFromAPI := issueNumber d0 in
    let expectedNext := calculateNextPeriod latestFromAPI in
    let lastPredicted := period p0 in
    if negb (bool_decide (lastPredicted = ""))
       && negb (bool_decide (lastPredicted = expectedNext))
    then {| predictionHistory := filter isResolved (predictionHistory st);
            seenPeriods := ∅ |}
    else st
  end.

End PeriodSync.

(** * Properties *)

Section BufferFacts.

Lemma unshift_loop (P : OutcomeRecord → Prop) `{∀ x, Decision (P x)}
    (newData buf : list OutcomeRecord) :
  foldl (λ b item, if bool_decide (P item) then b else item :: b) buf newData
  = reverse (filter (λ item, ¬ P item) newData) ++ buf.
Proof.
  revert buf. induction newData as [|item rest IH]; intros buf; simpl.
  - done.
  - rewrite IH. rewrite filter_cons.
    destruct (decide (P item)) as [Hp|Hp].
    + rewrite bool_decide_true by done.
      destruct (decide (¬ P item)); [contradiction | done].
    + rewrite bool_decide_false by done.
      destruct (decide (¬ P item)); [| contradiction].
      rewrite reverse_cons, <- app_assoc. done.
Qed.

Lemma updateDataBuffer_spec (newData buf : list OutcomeRecord) :
  updateDataBuffer newData buf = take 200 (reverse (freshOf buf newData) ++ buf).
Proof.
  unfold updateDataBuffer, freshOf.
  rewrite (unshift_loop (λ item, issueNumber item ∈
             (list_to_set (issueNumber <$> buf) : gset string))).
  assert (Hf : filter (λ item, ¬ issueNumber item ∈
                 (list_to_set (issueNumber <$> buf) : gset string)) newData
               = filter (λ item, issueNumber item ∉ issueNumber <$> buf) newData).
  { apply list_filter_iff. intros x. by rewrite elem_of_list_to_set. }
  rewrite Hf.
  case_bool_decide as Hlen; [done |].
  rewrite take_ge; [done | lia].
Qed.

Lemma updateDataBuffer_length (newData buf : list OutcomeRecord) :
  length (updateDataBuffer newData buf) ≤ 200.
Proof. rewrite updateDataBuffer_spec, length_take. lia. Qed.

Lemma ingestAll_length (batches : list (list OutcomeRecord)) :
  ∀ buf, length buf ≤ 200 → length (ingestAll batches buf) ≤ 200.
Proof.
  induction batches as [|b rest IH]; intros buf Hb; simpl; [done |].
  apply IH, updateDataBuffer_length.
Qed.

End BufferFacts.

(** C2: after any sequence of [updateDataBuffer] calls the buffer holds at
    most 200 records; a call puts the inserted records at the head (each
    [unshift] in front of the previous one), followed by a prefix of the
    old buffer in its old order, so what overflows is cut from the tail. *)
Theorem updateDataBuffer_capacity_head_tail :
  (∀ batches : list (list OutcomeRecord), length (ingestAll batches []) ≤ 200)
  ∧ ∀ newData buf : list OutcomeRecord,
      length (updateDataBuffer newData buf) ≤ 200
      ∧ updateDataBuffer newData buf
        = take 200 (reverse (freshOf buf newData))
          ++ take (200 - length (freshOf buf newData)) buf.
Proof.
  split.
  - intros batches. apply ingestAll_length. simpl. lia.
  - intros newData buf. split.
    + apply updateDataBuffer_length.
    + rewrite updateDataBuffer_spec, take_app, length_reverse. done.
Qed.

Section BufferPeriods.

Lemma freshOf_periods_NoDup (buf newData : list OutcomeRecord) :
  NoDup (issueNumber <$> newData) →
  NoDup (issueNumber <$> reverse (freshOf buf newData)).
Proof.
  intros Hnd. rewrite fmap_reverse, reverse_Permutation.
  apply (sublist_NoDup _ _ Hnd).
  apply fmap_sublist. unfold freshOf. apply sublist_filter.
Qed.

Lemma freshOf_periods_fresh (buf newData : list OutcomeRecord) (p : string) :
  p ∈ issueNumber <$> reverse (freshOf buf newData) → p ∉ issueNumber <$> buf.
Proof.
  rewrite list_elem_of_fmap. intros (item & -> & Hin).
  rewrite elem_of_reverse in Hin. unfold freshOf in Hin.
  rewrite list_elem_of_filter in Hin. tauto.
Qed.

Lemma freshOf_all_present (buf newData : list OutcomeRecord) :
  Forall (λ item, issueNumber item ∈ issueNumber <$> buf) newData →
  freshOf buf newData = [].
Proof.
  intros Hall. unfold freshOf.
  induction Hall as [|item rest Hitem _ IH]; [done |].
  rewrite filter_cons. destruct (decide _); [contradiction | exact IH].
Qed.

End BufferPeriods.

(** C10: the set of known periods is taken once, before the insertions.
    A batch with two records of one new period has both inserted, which
    breaks the uniqueness of periods; a batch whose periods are pairwise
    distinct preserves it; and a batch of periods that are all in the
    buffer already leaves the buffer as it is. *)
Theorem updateDataBuffer_dedup_against_old_only :
  (issueNumber Sample.r3 = issueNumber Sample.r3'
   ∧ (issueNumber Sample.r3 ∉ issueNumber <$> [Sample.r1])
   ∧ updateDataBuffer [Sample.r3; Sample.r3'] [Sample.r1]
     = [Sample.r3'; Sample.r3; Sample.r1]
   ∧ NoDup (issueNumber <$> [Sample.r1])
   ∧ ¬ NoDup (issueNumber <$>
               updateDataBuffer [Sample.r3; Sample.r3'] [Sample.r1]))
  ∧ (∀ buf newData : list OutcomeRecord,
       NoDup (issueNumber <$> buf) →
       NoDup (issueNumber <$> newData) →
       NoDup (issueNumber <$> updateDataBuffer newData buf))
  ∧ (∀ buf newData : list OutcomeRecord,
       length buf ≤ 200 →
       Forall (λ item, issueNumber item ∈ issueNumber <$> buf) newData →
       updateDataBuffer newData buf = buf).
Proof.
  split; [| split].
  - split; [done |]. split; [by apply (bool_decide_unpack _) |].
    split; [by vm_compute |]. split; [by apply (bool_decide_unpack _) |].
    by apply (bool_decide_unpack _).
  - intros buf newData Hbuf Hnew. rewrite updateDataBuffer_spec.
    assert (Hall : NoDup (issueNumber <$> reverse (freshOf buf newData) ++ buf)).
    2: { apply (sublist_NoDup _ _ Hall), fmap_sublist, sublist_take. }
    rewrite fmap_app. apply NoDup_app. split; [| split].
    + by apply freshOf_periods_NoDup.
    + apply freshOf_periods_fresh.
    + exact Hbuf.
  - intros buf newData Hlen Hall. rewrite updateDataBuffer_spec.
    rewrite freshOf_all_present by done. simpl. apply take_ge. lia.
Qed.

Lemma updateDataBuffer_dedup_against_old_only_witness :
  NoDup (issueNumber <$> updateDataBuffer [Sample.r2; Sample.r3] [Sample.r1])
  ∧ updateDataBuffer [Sample.r1; Sample.r2] [Sample.r2; Sample.r1]
    = [Sample.r2; Sample.r1].
Proof.
  destruct updateDataBuffer_dedup_against_old_only as (_ & Hdistinct & Hnoop).
  split.
  - apply Hdistinct; apply (bool_decide_unpack _); vm_compute; reflexivity.
  - apply Hnoop; [simpl; lia |].
    apply (bool_decide_unpack _); vm_compute; reflexivity.
Defined.

(** C6: on a buffer of fewer than 30 records [analyzeMarketState] returns
    the market state it found and changes nothing: every field of
    [marketState], and the rest of the state, is as before the call. *)
Theorem analyzeMarketState_below_30_unchanged `{JSMath}
    (data : list (Slot OutcomeRecord)) (s : State) :
  length data < 30 →
  analyzeMarketState data s = (Normal (marketState s), s).
Proof.
  intros Hlen. unfold analyzeMarketState, bind, get.
  rewrite bool_decide_true by done. done.
Qed.

Lemma analyzeMarketState_below_30_unchanged_witness :
  analyzeMarketState (JSArray.dense [Sample.r1; Sample.r2; Sample.r3]) Sample.losing
  = (Normal Sample.exploitableMarket, Sample.losing).
Proof.
  apply (analyzeMarketState_below_30_unchanged
           (JSArray.dense [Sample.r1; Sample.r2; Sample.r3]) Sample.losing).
  simpl. lia.
Defined.

(** C9: [getRecoveryMode] answers ANTI_TREND only on an exploitable
    market; then there are at least two losses in a row and the trend
    label contains STRONG. *)
Theorem getRecoveryMode_ANTI_TREND_needs_exploitable (s : State) :
  getRecoveryMode s = ANTI_TREND →
  isExploitable (marketState s) = Some true
  ∧ 2 ≤ consecutiveLosses s
  ∧ includes (recentTrend (marketState s)) "STRONG" = true.
Proof.
  unfold getRecoveryMode, exploitable.
  destruct (bool_decide (3 ≤ consecutiveLosses s) && _); [discriminate |].
  case_bool_decide as Hloss; simpl.
  - destruct (isExploitable (marketState s)) as [[|]|]; simpl;
      try discriminate.
    destruct (includes _ _); [done | discriminate].
  - discriminate.
Qed.

Lemma getRecoveryMode_ANTI_TREND_needs_exploitable_witness :
  isExploitable (marketState Sample.losing) = Some true
  ∧ 2 ≤ consecutiveLosses Sample.losing
  ∧ includes (recentTrend (marketState Sample.losing)) "STRONG" = true.
Proof.
  apply (getRecoveryMode_ANTI_TREND_needs_exploitable Sample.losing).
  vm_compute. reflexivity.
Defined.




Section NumberFacts.
Local Open Scope Q_scope.

Lemma gtb_true (x y : Q) : JSNum.gtb x y = true ↔ y < x.
Proof.
  unfold JSNum.gtb, JSNum.ltb. rewrite negb_true_iff.
  split.
  - intros Hb. apply Qnot_le_lt. intros Hle.
    apply Qle_bool_iff in Hle. congruence.
  - intros Hlt. destruct (Qle_bool x y) eqn:Hb; [| done].
    apply Qle_bool_iff in Hb. exfalso. by apply (Qlt_not_le y x).
Qed.

Lemma gtb_false (x y : Q) : JSNum.gtb x y = false ↔ x <= y.
Proof.
  unfold JSNum.gtb, JSNum.ltb. rewrite negb_false_iff. apply Qle_bool_iff.
Qed.

Lemma geb_true (x y : Q) : JSNum.geb x y = true ↔ y <= x.
Proof. apply Qle_bool_iff. Qed.

Lemma geb_false (x y : Q) : JSNum.geb x y = false ↔ x < y.
Proof.
  unfold JSNum.geb, JSNum.leb. split.
  - intros Hb. apply Qnot_le_lt. intros Hle.
    apply Qle_bool_iff in Hle. congruence.
  - intros Hlt. destruct (Qle_bool y x) eqn:Hb; [| done].
    apply Qle_bool_iff in Hb. exfalso. by apply (Qlt_not_le x y).
Qed.

End NumberFacts.

Section PatternChoice.
Context (db : gmap string Stats) (numbers : list nat).
Local Open Scope Q_scope.

Lemma patternLoop_below (conf : Q) (lens : list nat) :
  candidatesAll db numbers Qlt conf lens →
  ∀ best, fst best < conf →
  fst (foldl (patternStep db numbers) best lens) < conf.
Proof.
  induction 1 as [|len rest Hlen _ IH]; intros best Hbest; simpl; [done |].
  apply IH. unfold patternStep.
  destruct (patternCandidate db numbers len) as [[c lab]|]; [| done].
  destruct (JSNum.gtb c (fst best)); done.
Qed.

Lemma patternLoop_keeps (conf : Q) (lab : Label) (lens : list nat) :
  candidatesAll db numbers Qle conf lens →
  foldl (patternStep db numbers) (conf, Some lab) lens = (conf, Some lab).
Proof.
  induction 1 as [|len rest Hlen _ IH]; simpl; [done |].
  unfold patternStep at 2.
  destruct (patternCandidate db numbers len) as [[c l]|]; [| done].
  simpl. apply gtb_false in Hlen. rewrite Hlen. exact IH.
Qed.

Lemma patternLoop_first_maximal (earlier later : list nat) (len : nat)
    (conf : Q) (lab : Label) :
  patternCandidate db numbers len = Some (conf, lab) →
  0 < conf →
  candidatesAll db numbers Qlt conf earlier →
  candidatesAll db numbers Qle conf later →
  foldl (patternStep db numbers) (0, None) (earlier ++ len :: later)
  = (conf, Some lab).
Proof.
  intros Hcand Hpos Hearlier Hlater.
  rewrite foldl_app. simpl.
  pose proof (patternLoop_below conf earlier Hearlier (0, None) Hpos) as Hbelow.
  unfold patternStep at 2. rewrite Hcand.
  apply gtb_true in Hbelow. rewrite Hbelow.
  by apply patternLoop_keeps.
Qed.

End PatternChoice.

(** C7, as the code has it: the window lengths are tried in ascending
    order and a length replaces the current best only on a strictly
    greater confidence.  So the length chosen is the first one of highest
    confidence: every length tried earlier (smaller) is strictly below
    it, a length tried later (larger) may tie with it and still loses. *)
Theorem predictWithPatterns_first_of_highest_confidence
    (db : gmap string Stats) (data : list OutcomeRecord)
    (earlier later : list nat) (len : nat) (conf : Q) (lab : Label) :
  CONFIG.SEQUENCE_LENGTHS = earlier ++ len :: later →
  patternCandidate db (map number data) len = Some (conf, lab) →
  (0 < conf)%Q →
  candidatesAll db (map number data) Qlt conf earlier →
  candidatesAll db (map number data) Qle conf later →
  predictWithPatterns db data
  = {| prediction := lab; confidence := conf; source := "pattern" |}.
Proof.
  intros Hlens Hcand Hpos Hearlier Hlater. unfold predictWithPatterns.
  rewrite Hlens.
  by rewrite (patternLoop_first_maximal db (map number data)
                earlier later len conf lab).
Qed.

Lemma predictWithPatterns_first_of_highest_confidence_witness :
  predictWithPatterns Tie.db Tie.data
  = {| prediction := SMALL; confidence := (3 # 1) / (3 # 1); source := "pattern" |}.
Proof.
  apply (predictWithPatterns_first_of_highest_confidence
           Tie.db Tie.data [] [4; 5; 6; 7; 8] 3 ((3 # 1) / (3 # 1)) SMALL).
  - reflexivity.
  - vm_compute. reflexivity.
  - vm_compute. reflexivity.
  - constructor.
  - unfold candidatesAll.
    repeat (constructor; [vm_compute; try discriminate; exact I |]).
    constructor.
Defined.

(** C7, as the claim has it, fails: lengths 3 and 4 both qualify with the
    same, highest, confidence and opposite labels, no other length
    qualifies, and the answer is the label of length 3, not of the larger
    length 4. *)
Lemma predictWithPatterns_tie_keeps_smaller_length :
  let numbers := map number Tie.data in
  let conf := ((3 # 1) / (3 # 1))%Q in
  patternCandidate Tie.db numbers 3 = Some (conf, SMALL)
  ∧ patternCandidate Tie.db numbers 4 = Some (conf, BIG)
  ∧ Forall (λ len, patternCandidate Tie.db numbers len = None) [5; 6; 7; 8]
  ∧ prediction (predictWithPatterns Tie.db Tie.data) = SMALL
  ∧ prediction (predictWithPatterns Tie.db Tie.data) ≠ BIG.
Proof.
  intros numbers conf.
  split; [vm_compute; reflexivity |].
  split; [vm_compute; reflexivity |].
  split.
  { repeat (constructor; [vm_compute; reflexivity |]). constructor. }
  split; [vm_compute; reflexivity | vm_compute; discriminate].
Qed.

Section WeightFacts.
Local Open Scope Q_scope.

Lemma or_default_pos (a d : Q) : 0 <= a → 0 < d → 0 < JSNum.or_default a d.
Proof.
  intros Ha Hd. unfold JSNum.or_default.
  destruct (Qeq_bool a 0) eqn:Hz; [done |].
  apply Qeq_bool_neq in Hz. apply Qle_lteq in Ha as [Hlt | Heq]; [done |].
  exfalso. apply Hz. by symmetry.
Qed.

(** Sums by [foldl]. *)
Lemma foldl_Qplus_proper (l : list Q) (a b : Q) :
  a == b → foldl Qplus a l == foldl Qplus b l.
Proof.
  revert a b. induction l as [|x l IH]; intros a b Hab; simpl; [done |].
  apply IH. by rewrite Hab.
Qed.

Lemma foldl_Qplus_shift (l : list Q) (a : Q) :
  foldl Qplus a l == a + foldl Qplus 0 l.
Proof.
  revert a. induction l as [|x l IH]; intros a; simpl.
  - lra.
  - rewrite (IH (a + x)), (IH (0 + x)). lra.
Qed.

Lemma sum_cons (x : Q) (l : list Q) : JSNum.sum (x :: l) == x + JSNum.sum l.
Proof. unfold JSNum.sum. simpl. rewrite foldl_Qplus_shift. lra. Qed.

Lemma sum_app (l k : list Q) : JSNum.sum (l ++ k) == JSNum.sum l + JSNum.sum k.
Proof.
  induction l as [|x l IH]; simpl.
  - unfold JSNum.sum at 2. simpl. lra.
  - rewrite !sum_cons, IH. lra.
Qed.

Lemma sum_nonneg (l : list Q) : Forall (λ x, 0 <= x) l → 0 <= JSNum.sum l.
Proof.
  induction 1 as [|x l Hx _ IH]; [done |]. rewrite sum_cons. lra.
Qed.

Lemma sum_pos (l : list Q) :
  Forall (λ x, 0 <= x) l → Exists (λ x, 0 < x) l → 0 < JSNum.sum l.
Proof.
  intros Hall Hex. induction Hall as [|x l Hx Hl IH].
  - inversion Hex.
  - rewrite sum_cons. pose proof (sum_nonneg l Hl).
    apply Exists_cons in Hex as [Hpos | Hex]; [lra |].
    specialize (IH Hex). lra.
Qed.


Lemma foldl_sum_map {A} (g : A → Q) (l : list A) (a : Q) :
  foldl (λ sum p, sum + g p) a l = foldl Qplus a (map g l).
Proof. revert a. induction l as [|x l IH]; intros a; simpl; [done | apply IH]. Qed.

(** Dictionary objects. *)
Lemma lookupKey_is_Some {V} (key : string) (obj : list (string * V)) :
  is_Some (lookupKey key obj) ↔ key ∈ map fst obj.
Proof.
  induction obj as [|[k v] obj IH]; simpl.
  - rewrite elem_of_nil. split; [intros [? [=]] | done].
  - rewrite elem_of_cons. case_bool_decide as Hk.
    + subst. split; [by left | by eexists].
    + rewrite IH. split; [by right | intros [? | ?]; [congruence | done]].
Qed.

Lemma assignKey_keys {V} (key : string) (v : V) (obj : list (string * V)) :
  key ∈ map fst obj → map fst (assignKey key v obj) = map fst obj.
Proof.
  induction obj as [|[k x] obj IH]; simpl.
  - by rewrite elem_of_nil.
  - rewrite elem_of_cons. intros Hin. case_bool_decide as Hk; [done |].
    simpl. f_equal. apply IH. destruct Hin; [congruence | done].
Qed.

Lemma assignKey_Forall {V} (P : string * V → Prop) (key : string) (v : V)
    (obj : list (string * V)) :
  key ∈ map fst obj → P (key, v) → Forall P obj → Forall P (assignKey key v obj).
Proof.
  intros Hin Hv. induction 1 as [|[k x] obj Hx Hobj IH]; simpl.
  - by rewrite elem_of_nil in Hin.
  - case_bool_decide as Hk.
    + subst. by constructor.
    + constructor; [done |]. apply IH. simpl in Hin.
      apply elem_of_cons in Hin as [? | ?]; [congruence | done].
Qed.



Lemma blend_step_wrap (model : string) (newWeight : Q) (l : list (string * Q)) :
  model ∈ map fst l →
  assignKey model
    (w ← mjoin (lookupKey model (wrap l)); Some (w * 0.7 + newWeight * 0.3))
    (wrap l)
  = wrap (blend1 model newWeight l).
Proof.
  induction l as [|[k w] l IH]; simpl.
  - by rewrite elem_of_nil.
  - rewrite elem_of_cons. intros Hin. case_bool_decide as Hk; [done |].
    simpl. f_equal. apply IH. destruct Hin; [congruence | done].
Qed.

Lemma blend1_keys (model : string) (nw : Q) (l : list (string * Q)) :
  map fst (blend1 model nw l) = map fst l.
Proof.
  induction l as [|[k w] l IH]; simpl; [done |].
  case_bool_decide; simpl; [done | by f_equal].
Qed.

Lemma blend1_nonneg (model : string) (nw : Q) (l : list (string * Q)) :
  0 <= nw → Forall (λ kv, 0 <= snd kv) l →
  Forall (λ kv, 0 <= snd kv) (blend1 model nw l).
Proof.
  intros Hnw. induction 1 as [|[k w] l Hw Hl IH]; simpl; [done |].
  simpl in Hw. case_bool_decide; constructor; simpl; try done. lra.
Qed.

Lemma blend1_pos (model : string) (nw : Q) (l : list (string * Q)) :
  0 < nw → model ∈ map fst l → Forall (λ kv, 0 <= snd kv) l →
  Exists (λ kv, 0 < snd kv) (blend1 model nw l).
Proof.
  intros Hnw Hin. induction 1 as [|[k w] l Hw Hl IH]; simpl.
  - by rewrite elem_of_nil in Hin.
  - simpl in Hw, Hin. case_bool_decide as Hk.
    + apply Exists_cons_hd. simpl. lra.
    + apply Exists_cons_tl, IH.
      apply elem_of_cons in Hin as [? | ?]; [congruence | done].
Qed.


Lemma blendWeights_wrap (mp : list (string * Perf)) (tp : Q) :
  ∀ l : list (string * Q),
  Forall (λ kp, fst kp ∈ map fst l) mp →
  blendWeights mp tp (wrap l)
  = wrap (foldl (λ l kp, blend1 (fst kp) (newWeightOf tp (snd kp)) l) l mp).
Proof.
  unfold blendWeights.
  induction mp as [|[model p] mp IH]; intros l Hkeys; simpl; [done |].
  apply Forall_cons in Hkeys as [Hm Hkeys]. simpl in Hm.
  rewrite blend_step_wrap by done. apply IH.
  by rewrite blend1_keys.
Qed.

Lemma blend_fold_facts (tp : Q) (mp : list (string * Perf)) :
  ∀ l : list (string * Q),
  Forall (λ kp, fst kp ∈ map fst l) mp →
  Forall (λ kp, 0 < newWeightOf tp (snd kp)) mp →
  Forall (λ kv, 0 <= snd kv) l →
  let l' := foldl (λ l kp, blend1 (fst kp) (newWeightOf tp (snd kp)) l) l mp in
  map fst l' = map fst l
  ∧ Forall (λ kv, 0 <= snd kv) l'
  ∧ (mp ≠ [] → Exists (λ kv, 0 < snd kv) l').
Proof.
  induction mp as [|[model p] mp IH]; intros l Hkeys Hnw Hl; simpl.
  - done.
  - apply Forall_cons in Hkeys as [Hm Hkeys].
    apply Forall_cons in Hnw as [Hp Hnw]. simpl in Hm, Hp.
    pose proof (blend1_nonneg model (newWeightOf tp p) l (Qlt_le_weak _ _ Hp) Hl)
      as Hl1.
    destruct (IH (blend1 model (newWeightOf tp p) l)) as (Hk & Hn & Hex);
      [by rewrite blend1_keys | done | done |].
    split; [by rewrite Hk, blend1_keys |]. split; [done |].
    intros _. destruct mp as [|kp mp]; [| by apply Hex].
    simpl. by apply blend1_pos.
Qed.

Lemma totalWeightOf_wrap (l : list (string * Q)) :
  totalWeightOf (wrap l) = Some (JSNum.sum (map snd l)).
Proof.
  unfold totalWeightOf, JSNum.sum.
  assert (Hgen : ∀ a : Q,
            foldl (λ (a : option Q) (kv : string * option Q),
                     x ← a; b ← snd kv; Some (x + b)) (Some a) (wrap l)
            = Some (foldl Qplus a (map snd l))).
  { induction l as [|[k w] l IH]; intros a; simpl; [done | apply IH]. }
  apply Hgen.
Qed.

Lemma renormalize_wrap (t : Q) (l : list (string * Q)) :
  renormalize (Some t) (wrap l)
  = map (λ kv, (fst kv, if JSNum.gtb t 0 then snd kv / t else 0.15)) l.
Proof. unfold renormalize, wrap. rewrite map_map. done. Qed.

Lemma totalPerformanceOf_pos (mp : list (string * Perf)) :
  mp ≠ [] → Forall (λ kp, 0 <= recentAccuracy (snd kp)) mp →
  0 < totalPerformanceOf mp.
Proof.
  intros Hne Hacc. unfold totalPerformanceOf.
  rewrite (foldl_sum_map (λ p, JSNum.or_default (recentAccuracy (snd p)) 0.5)).
  apply sum_pos.
  - apply Forall_map. eapply Forall_impl; [exact Hacc |].
    intros kp Hkp. simpl. apply Qlt_le_weak, or_default_pos; [done | lra].
  - destruct Hacc as [|kp mp Hkp _]; [done |].
    apply Exists_cons_hd. apply or_default_pos; [done | lra].
Qed.

End WeightFacts.

Section WeightAdapter.
Local Open Scope Q_scope.

Lemma Qdiv_pos (a b : Q) : 0 < a → 0 < b → 0 < a / b.
Proof.
  intros Ha Hb. unfold Qdiv. apply Qmult_lt_0_compat; [done |].
  by apply Qinv_lt_0_compat.
Qed.

Lemma Qdiv_nonneg (a b : Q) : 0 <= a → 0 < b → 0 <= a / b.
Proof.
  intros Ha Hb. unfold Qdiv. apply Qmult_le_0_compat; [done |].
  by apply Qinv_le_0_compat, Qlt_le_weak.
Qed.

Lemma updatePerf_nonneg (wasCorrect : bool) (perf : Perf) :
  0 <= recentAccuracy perf → 0 <= recentAccuracy (updatePerf wasCorrect perf).
Proof. intros Ha. destruct wasCorrect; simpl; lra. Qed.

(** The call on a well-formed state, step by step: the weights after the
    blending loop are numbers, none negative and one positive, so their
    total is positive and the last loop divides by it. *)
Lemma updateModelWeights_unfold (s : State) (modelName : string)
    (wasCorrect : bool) (perf : Perf) :
  weightsWellFormed s →
  lookupKey modelName (modelPerformance s) = Some perf →
  let mp := assignKey modelName (updatePerf wasCorrect perf) (modelPerformance s) in
  ∃ blended : list (string * Q),
    updateModelWeights modelName wasCorrect s
    = set_weights
        (map (λ kv, (fst kv, snd kv / JSNum.sum (map snd blended))) blended) mp s
    ∧ 0 < JSNum.sum (map snd blended)
    ∧ Forall (λ kv, 0 <= snd kv) blended
    ∧ map fst blended = map fst (modelWeights s)
    ∧ map fst mp = map fst (modelPerformance s)
    ∧ Forall (λ kp, 0 <= recentAccuracy (snd kp)) mp.
Proof.
  intros (Hw & Hacc & Hkeys) Hperf mp.
  assert (Hin : modelName ∈ map fst (modelPerformance s)).
  { apply lookupKey_is_Some. by eexists. }
  assert (Hmpk : map fst mp = map fst (modelPerformance s)).
  { by apply assignKey_keys. }
  assert (Hmpacc : Forall (λ kp, 0 <= recentAccuracy (snd kp)) mp).
  { apply assignKey_Forall; [done | | done]. simpl.
    apply updatePerf_nonneg.
    clear -Hacc Hperf. induction Hacc as [|[k p] l Hp _ IH]; [done |].
    simpl in Hperf. case_bool_decide; [| by apply IH].
    by injection Hperf as <-. }
  assert (Hne : mp ≠ []).
  { intros Hnil. rewrite Hnil in Hmpk. simpl in Hmpk.
    rewrite <- Hmpk in Hin. by apply elem_of_nil in Hin. }
  pose proof (totalPerformanceOf_pos mp Hne Hmpacc) as Htp.
  assert (Hmpkeys : Forall (λ kp, fst kp ∈ map fst (modelWeights s)) mp).
  { apply Forall_forall. intros kp Hkp.
    assert (Hk : fst kp ∈ map fst (modelPerformance s)).
    { rewrite <- Hmpk. apply list_elem_of_fmap. by exists kp. }
    apply list_elem_of_fmap in Hk as (kp' & Heq & Hkp'). rewrite Heq.
    by apply (proj1 (Forall_forall _ _) Hkeys). }
  assert (Hnw : Forall (λ kp, 0 < newWeightOf (totalPerformanceOf mp) (snd kp)) mp).
  { eapply Forall_impl; [exact Hmpacc |]. intros kp Hkp. simpl in Hkp.
    apply Qdiv_pos; [| done]. apply or_default_pos; [done | lra]. }
  destruct (blend_fold_facts (totalPerformanceOf mp) mp (modelWeights s)
              Hmpkeys Hnw Hw) as (Hbk & Hbn & Hbp).
  eexists. split; [| split; [| split; [| split; [| split]]]].
  - unfold updateModelWeights. rewrite Hperf. fold mp.
    change (map (λ kv : string * Q, (fst kv, Some (snd kv))) (modelWeights s))
      with (wrap (modelWeights s)).
    rewrite blendWeights_wrap by done.
    rewrite totalWeightOf_wrap, renormalize_wrap.
    assert (Hpos : 0 < JSNum.sum (map snd
              (foldl (λ l kp, blend1 (fst kp)
                        (newWeightOf (totalPerformanceOf mp) (snd kp)) l)
                     (modelWeights s) mp))).
    { apply sum_pos.
      - apply Forall_map. exact Hbn.
      - apply Exists_fmap. by apply Hbp. }
    apply gtb_true in Hpos. rewrite Hpos. reflexivity.
  - apply sum_pos; [apply Forall_map; exact Hbn | apply Exists_fmap; by apply Hbp].
  - exact Hbn.
  - exact Hbk.
  - exact Hmpk.
  - exact Hmpacc.
Qed.

End WeightAdapter.



Lemma initialState_weightsWellFormed : weightsWellFormed initialState.
Proof.
  split; [| split].
  - repeat constructor; simpl; discriminate.
  - repeat constructor; simpl; discriminate.
  - repeat constructor; simpl; set_solver.
Qed.







Section EnsembleFacts.
Context `{JSMath}.
Local Open Scope Q_scope.

(** The predictors touch the LSTM cell and nothing else. *)
Lemma predictWithLSTM_frame (data : list OutcomeRecord) (s : State) :
  ∃ c, snd (predictWithLSTM data s) = set_lstmCell c s.
Proof.
  unfold predictWithLSTM, bind, get.
  destruct (lstmCell s) as [c|] eqn:Hc.
  - case_bool_decide.
    + exists (Some c). simpl. destruct s; simpl in *; by subst.
    + unfold lift. destruct (forwardLSTM c _) as [[hidden c']|]; simpl.
      * by eexists.
      * exists (Some c). destruct s; simpl in *; by subst.
  - by eexists.
Qed.

Lemma runPredictors_frame (data : list OutcomeRecord) (s : State) :
  ∃ c, snd (runPredictors data s) = set_lstmCell c s.
Proof.
  unfold runPredictors, bind, get, lift.
  destruct (predictWithMarkov (markovChains s) data) as [markov|]; simpl.
  - destruct (predictWithLSTM_frame data s) as [c Hc].
    destruct (predictWithLSTM data s) as [[neural|] s1]; simpl in *;
      by exists c.
  - exists (lstmCell s). destruct s; done.
Qed.

Lemma scores_fold_big (mw : list (string * Q))
    (predictions : list (string * Prediction)) (acc : Q * Q) :
  Forall (λ mp, prediction (snd mp) = BIG) predictions →
  snd (foldl (λ acc mp,
                let '(bigScore, smallScore) := acc in
                let '(model, pred) := mp in
                let weight := JSNum.or_default
                                (default 0 (lookupKey model mw)) 0.15 in
                let score := JSNum.or_default (confidence pred) 0.5 * weight in
                if Label_eqb (prediction pred) BIG then (bigScore + score, smallScore)
                else (bigScore, smallScore + score))
             acc predictions)
  = snd acc.
Proof.
  intros Hall. revert acc.
  induction Hall as [|[model pred] rest Hp _ IH]; intros [b sm]; simpl; [done |].
  simpl in Hp. rewrite Hp. simpl. by rewrite IH.
Qed.

Lemma scores_fold_small (mw : list (string * Q))
    (predictions : list (string * Prediction)) (acc : Q * Q) :
  Forall (λ mp, prediction (snd mp) ≠ BIG) predictions →
  fst (foldl (λ acc mp,
                let '(bigScore, smallScore) := acc in
                let '(model, pred) := mp in
                let weight := JSNum.or_default
                                (default 0 (lookupKey model mw)) 0.15 in
                let score := JSNum.or_default (confidence pred) 0.5 * weight in
                if Label_eqb (prediction pred) BIG then (bigScore + score, smallScore)
                else (bigScore, smallScore + score))
             acc predictions)
  = fst acc.
Proof.
  intros Hall. revert acc.
  induction Hall as [|[model pred] rest Hp _ IH]; intros [b sm]; simpl; [done |].
  simpl in Hp. unfold Label_eqb. rewrite bool_decide_false by done.
  by rewrite IH.
Qed.

Lemma filter_all {A} (P : A → Prop) `{∀ x, Decision (P x)} (l : list A) :
  length (filter P l) = length l → Forall P l.
Proof.
  induction l as [|x l IH]; [done |]. rewrite filter_cons.
  destruct (decide (P x)) as [Hx | Hx]; simpl.
  - intros Hlen. constructor; [done |]. apply IH. lia.
  - intros Hlen. pose proof (length_filter P l). lia.
Qed.

Lemma filter_none {A} (P : A → Prop) `{∀ x, Decision (P x)} (l : list A) :
  length (filter P l) = 0%nat → Forall (λ x, ¬ P x) l.
Proof.
  induction l as [|x l IH]; [done |]. rewrite filter_cons.
  destruct (decide (P x)) as [Hx | Hx]; simpl; [done |].
  intros Hlen. constructor; [done | by apply IH].
Qed.

Lemma ofNat_div_one (a n : nat) : (0 < n)%nat →
  JSNum.ofNat a / JSNum.ofNat n == 1 → a = n.
Proof.
  intros Hn Heq. unfold JSNum.ofNat in Heq.
  assert (Hnz : ¬ inject_Z (Z.of_nat n) == 0).
  { intros Hz. unfold Qeq in Hz. simpl in Hz. lia. }
  apply (Qmult_inj_r _ _ (inject_Z (Z.of_nat n)) Hnz) in Heq.
  rewrite Qmult_1_l in Heq. unfold Qdiv in Heq.
  rewrite <- Qmult_assoc, (Qmult_comm (/ _)), Qmult_inv_r, Qmult_1_r in Heq
    by done.
  unfold Qeq in Heq. simpl in Heq. lia.
Qed.

(** Agreement 1.0: the six votes are all BIG or all SMALL. *)
Lemma agreement_one_unanimous (predictions : list (string * Prediction)) :
  agreementOf predictions == 1 →
  predictions ≠ []
  ∧ (Forall (λ mp, prediction (snd mp) = BIG) predictions
     ∨ Forall (λ mp, prediction (snd mp) ≠ BIG) predictions).
Proof.
  unfold agreementOf. rewrite length_map.
  case_bool_decide as Hn.
  - intros Heq. apply ofNat_div_one in Heq; [| done].
    split; [by destruct predictions; [simpl in Hn; lia |] |].
    set (b := length (filter (λ p, prediction p = BIG) (map snd predictions))) in *.
    assert (Hb : b = length (map snd predictions) ∨ b = 0%nat).
    { rewrite length_map. lia. }
    destruct Hb as [Hb | Hb].
    + left. apply filter_all in Hb. exact (proj1 (Forall_map _ _ _) Hb).
    + right. apply filter_none in Hb. exact (proj1 (Forall_map _ _ _) Hb).
  - intros Heq. exfalso. revert Heq. unfold Qeq. simpl. lia.
Qed.

Lemma Qmax_zero_r (b : Q) : 0 < b → Qmax b 0 == b.
Proof. intros Hb. apply Q.max_l. by apply Qlt_le_weak. Qed.

Lemma Qmax_zero_l (b : Q) : 0 < b → Qmax 0 b == b.
Proof. intros Hb. apply Q.max_r. by apply Qlt_le_weak. Qed.

(** With every vote on one side the other score stays 0, and the raw
    confidence is 1 when the total is positive and 0.5 when it is not. *)
Lemma unanimous_rawConfidence (mw : list (string * Q))
    (predictions : list (string * Prediction)) :
  Forall (λ mp, prediction (snd mp) = BIG) predictions
  ∨ Forall (λ mp, prediction (snd mp) ≠ BIG) predictions →
  0.78 <= rawConfidenceOf (ensembleScores mw predictions) →
  rawConfidenceOf (ensembleScores mw predictions) == 1.
Proof.
  intros Hall. unfold rawConfidenceOf.
  destruct (ensembleScores mw predictions) as [b sm] eqn:Hs. simpl.
  assert (Hzero : sm = 0 ∨ b = 0).
  { destruct Hall as [Hbig | Hsmall].
    - left. change sm with (snd (b, sm)). rewrite <- Hs.
      unfold ensembleScores. by rewrite scores_fold_big.
    - right. change b with (fst (b, sm)). rewrite <- Hs.
      unfold ensembleScores. by rewrite scores_fold_small. }
  destruct (JSNum.gtb (b + sm) 0) eqn:Htot.
  - intros _. apply gtb_true in Htot.
    destruct Hzero as [-> | ->].
    + assert (Hb : 0 < b) by lra. rewrite (Qmax_zero_r b Hb).
      field. lra.
    + assert (Hb : 0 < sm) by lra. rewrite (Qmax_zero_l sm Hb).
      field. lra.
  - intros Hle. exfalso. lra.
Qed.

(** The shaping of a raw confidence of 1 on an exploitable market with
    no loss streak and at least 0.8 agreement stays at or above 0.78. *)
Lemma shapeConfidence_unanimous (s : State) (agreement rawConfidence : Q) :
  0.8 <= agreement →
  rawConfidence == 1 →
  exploitable (marketState s) = true →
  consecutiveLosses s = 0%nat →
  0.78 <= shapeConfidence s agreement rawConfidence.
Proof.
  intros Hagr Hraw Hexp Hloss. unfold shapeConfidence.
  apply geb_true in Hagr. rewrite Hagr, Hexp, Hloss. simpl.
  eapply Qle_trans; [| apply Q.le_max_r].
  apply Q.min_glb; [lra |].
  destruct (JSNum.gtb (volatility (marketState s)) 0.6);
    destruct (bool_decide (5 ≤ consecutiveWins s)%nat); lra.
Qed.

Lemma tierOf_ultra (conf agreement : Q) :
  78 <= conf → 0.8 <= agreement → fst (tierOf conf agreement) = ULTRA_HIGH.
Proof.
  intros Hc Ha. unfold tierOf.
  apply geb_true in Hc, Ha. by rewrite Hc, Ha.
Qed.

Lemma aggregate_tier (s : State) (predictions : list (string * Prediction)) :
  tier (aggregate s predictions)
  = fst (tierOf (shapeConfidence s (agreementOf predictions)
                   (rawConfidenceOf (ensembleScores (modelWeights s) predictions))
                 * 100)
                (agreementOf predictions)).
Proof. unfold aggregate. by destruct (tierOf _ _). Qed.

End EnsembleFacts.

(** The shaping alone does not carry a raw confidence of 0.78 to the top
    tier on a volatile market: 0.86 times 0.90 is 0.774. *)
Lemma tierOf_raw_078_volatile :
  let s := set_marketState
             {| volatility := 0.7%Q; bias := 0.7%Q; entropy := 0.88%Q;
                recentTrend := "STRONG_BIG"; market_confidence := 0.6%Q;
                lastUpdate := 0; randomnessQuality := 0.12%Q;
                isExploitable := Some true |} initialState in
  fst (tierOf (shapeConfidence s 1 0.78 * 100) 1) = HIGH.
Proof. vm_compute. reflexivity. Qed.

(** C5: when the six predictors all vote the same way (agreement 1.0),
    the market is exploitable, there is no loss streak and the raw
    ensemble confidence is at least 0.78, the decision has tier
    ULTRA_HIGH.  (With every vote on one side the raw confidence is 1, and
    its shaping cannot fall below 0.78.) *)
Theorem generateEnsemblePrediction_unanimous_ULTRA_HIGH `{JSMath}
    (data : list OutcomeRecord) (s : State)
    (predictions : list (string * Prediction)) :
  fst (runPredictors data s) = Normal predictions →
  (agreementOf predictions == 1)%Q →
  exploitable (marketState s) = true →
  consecutiveLosses s = 0 →
  (0.78 <= rawConfidenceOf (ensembleScores (modelWeights s) predictions))%Q →
  ∃ d : EnsembleDecision,
    fst (generateEnsemblePrediction data s) = Normal d
    ∧ modelOutputs d = predictions
    ∧ tier d = ULTRA_HIGH.
Proof.
  intros Hrun Hagr Hexp Hloss Hraw.
  destruct (runPredictors_frame data s) as [c Hc].
  unfold generateEnsemblePrediction, bind, get, ret.
  destruct (runPredictors data s) as [r s1]. simpl in Hrun, Hc. subst r s1.
  simpl. eexists. split; [reflexivity |].
  split; [unfold aggregate; by destruct (tierOf _ _) |].
  rewrite aggregate_tier. simpl.
  destruct (agreement_one_unanimous predictions Hagr) as [_ Hall].
  pose proof (unanimous_rawConfidence (modelWeights s) predictions Hall Hraw)
    as Hone.
  assert (Hagr8 : (0.8 <= agreementOf predictions)%Q) by (rewrite Hagr; lra).
  apply tierOf_ultra; [| done].
  pose proof (shapeConfidence_unanimous (set_lstmCell c s)
                (agreementOf predictions) _ Hagr8 Hone Hexp Hloss) as Hshape.
  lra.
Qed.


Lemma generateEnsemblePrediction_unanimous_ULTRA_HIGH_witness :
  ∃ d : EnsembleDecision,
    fst (generateEnsemblePrediction Sample.sevens Sample.unanimous) = Normal d
    ∧ modelOutputs d = Sample.unanimousOutputs
    ∧ tier d = ULTRA_HIGH.
Proof.
  apply (generateEnsemblePrediction_unanimous_ULTRA_HIGH
           Sample.sevens Sample.unanimous Sample.unanimousOutputs).
  - vm_compute. reflexivity.
  - vm_compute. reflexivity.
  - vm_compute. reflexivity.
  - vm_compute. reflexivity.
  - vm_compute. discriminate.
Defined.


Section Totality.
Context `{JSMath}.







(** The empty buffer is the one the Markov fallback throws on. *)
Lemma generateEnsemblePrediction_empty_throws (s : State) :
  generateEnsemblePrediction [] s = (Throw, s).
Proof. reflexivity. Qed.

End Totality.

(** Where each model falls back. *)
Section Fallbacks.
Context `{JSMath}.

Lemma predictWithMarkov_fallback (chains : gmap string Stats)
    (d0 : OutcomeRecord) (rest : list OutcomeRecord) :
  markovLoop chains (d0 :: rest) CONFIG.MARKOV_ORDER = None →
  predictWithMarkov chains (d0 :: rest)
  = Some {| prediction := flipLabel (bigSmall d0); confidence := 0.51%Q;
            source := "markov_fallback" |}.
Proof. intros Hloop. unfold predictWithMarkov. by rewrite Hloop. Qed.

Lemma predictWithFrequency_insufficient (data : list OutcomeRecord) :
  length data < 10 →
  predictWithFrequency data
  = {| prediction := BIG; confidence := 0.50%Q;
       source := "frequency_insufficient" |}.
Proof.
  intros Hlen. unfold predictWithFrequency, frequencyWindow. simpl.
  by rewrite !bool_decide_true by lia.
Qed.

Lemma predictWithPatterns_untrained (data : list OutcomeRecord) :
  predictWithPatterns ∅ data
  = {| prediction := if bool_decide (5 ≤ countBig (JSArray.slice 0 10 data))
                     then BIG else SMALL;
       confidence := 0.52%Q; source := "pattern_fallback" |}.
Proof.
  unfold predictWithPatterns.
  assert (Hloop : ∀ lens best,
            foldl (patternStep ∅ (map number data)) best lens = best).
  { induction lens as [|len lens IH]; intros best; simpl; [done |].
    rewrite <- (IH best) at 2. f_equal. unfold patternStep, patternCandidate.
    case_bool_decide; [done |]. by rewrite lookup_empty. }
  by rewrite Hloop.
Qed.

End Fallbacks.




Section TrainerFacts.
Context `{JSMath}.

Lemma map_field_is_Some {A B} (f : A → B) (arr : list (Slot A)) :
  is_Some (JSArray.map_field f arr) ↔ noNullish arr.
Proof.
  unfold noNullish. induction arr as [|x arr IH]; simpl.
  - split; [constructor | by eexists].
  - rewrite Forall_cons. destruct x as [| |a]; simpl.
    + rewrite fmap_is_Some, IH. split; [by split | by intros [_ ?]].
    + split; [by intros [? [=]] | by intros [? _]].
    + rewrite fmap_is_Some, IH. split; [by split | by intros [_ ?]].
Qed.

Lemma noNullish_slice {A} (i j : nat) (arr : list (Slot A)) :
  noNullish arr → noNullish (JSArray.slice i j arr).
Proof. intros Harr. by apply Forall_take, Forall_drop. Qed.

Lemma set_isTraining_back (s : State) (p : gmap string Stats)
    (m : gmap string Stats) :
  isTraining s = false →
  set_isTraining false
    (set_markovChains m (set_patternDatabase p (set_isTraining true s)))
  = set_markovChains m (set_patternDatabase p s).
Proof. intros Hs. destruct s; simpl in *. by subst. Qed.

Lemma set_isTraining_round (s : State) :
  isTraining s = false → set_isTraining false (set_isTraining true s) = s.
Proof. intros Hs. destruct s; simpl in *. by subst. Qed.

Lemma for_of_markov_frame {A} (xs : list A) (body : A → Eff unit) :
  (∀ x s, ∃ m, snd (body x s) = set_markovChains m s) →
  ∀ s, ∃ m, snd (for_of xs body s) = set_markovChains m s.
Proof.
  intros Hbody. induction xs as [|x xs IH]; intros s; simpl.
  - exists (markovChains s). by destruct s.
  - unfold bind. destruct (Hbody x s) as [m1 H1].
    destruct (body x s) as [[[]|] s1]; simpl in H1; subst s1.
    + destruct (IH (set_markovChains m1 s)) as [m2 H2].
      exists m2. by rewrite H2.
    + by exists m1.
Qed.

(** [trainMarkovChains] writes [markovChains] and nothing else, whether
    it returns or throws. *)
Lemma trainMarkovChains_frame (data : list (Slot OutcomeRecord)) (s : State) :
  ∃ m, snd (trainMarkovChains data s) = set_markovChains m s.
Proof.
  unfold trainMarkovChains.
  match goal with
  | |- context [for_of ?xs ?body] =>
    assert (Hloop : ∀ s0, ∃ m, snd (for_of xs body s0) = set_markovChains m s0)
  end.
  { apply for_of_markov_frame. intros order s1.
    apply for_of_markov_frame. intros i s2. unfold bind, lift.
    destruct (JSArray.map_field number _) as [digits|]; simpl.
    - destruct (JSArray.index_field number data (i + order)) as [next|]; simpl.
      + by eexists.
      + exists (markovChains s2). by destruct s2.
    - exists (markovChains s2). by destruct s2. }
  destruct (Hloop (set_markovChains ∅ s)) as [m Hm]. exists m. exact Hm.
Qed.

Lemma trainTrendAnalyzer_normal (data : list (Slot OutcomeRecord)) (s : State) :
  noNullish data → ∃ s', trainTrendAnalyzer data s = (Normal tt, s').
Proof.
  intros Hd. unfold trainTrendAnalyzer, bind, lift.
  destruct (proj2 (map_field_is_Some binary data) Hd) as [bits ->].
  simpl. by eexists.
Qed.

Lemma analyzeMarketState_normal (data : list (Slot OutcomeRecord)) (s : State) :
  noNullish data → ∃ ms s', analyzeMarketState data s = (Normal ms, s').
Proof.
  intros Hd. unfold analyzeMarketState, bind, get, lift.
  case_bool_decide; [by do 2 eexists |].
  destruct (proj2 (map_field_is_Some binary
              (JSArray.slice 0 (50 `min` length data) data))
              (noNullish_slice _ _ _ Hd)) as [bits ->].
  destruct (proj2 (map_field_is_Some number
              (JSArray.slice 0 (50 `min` length data) data))
              (noNullish_slice _ _ _ Hd)) as [nums ->].
  simpl. destruct (calculateStats nums) as [[mean std] variance].
  simpl. by do 2 eexists.
Qed.

Lemma bind_normal {A B} (m : Eff A) (k : A → Eff B) (s s' : State) (a : A) :
  m s = (Normal a, s') → bind m k s = k a s'.
Proof. intros Hm. unfold bind. by rewrite Hm. Qed.

Lemma bind_throw {A B} (m : Eff A) (k : A → Eff B) (s s' : State) :
  m s = (Throw, s') → bind m k s = (Throw, s').
Proof. intros Hm. unfold bind. by rewrite Hm. Qed.

Lemma trainPatternRecognition_cases (data : list (Slot OutcomeRecord)) (s : State) :
  trainPatternRecognition data s
  = match JSArray.map_field number data with
    | None => (Throw, s)
    | Some numbers => (Normal tt, set_patternDatabase (patternLoop numbers) s)
    end.
Proof.
  unfold trainPatternRecognition, bind, lift.
  by destruct (JSArray.map_field number data).
Qed.

(** A failing pass, case by case: either the first statement of
    [trainPatternRecognition] threw and nothing was written, or the
    pattern table was rebuilt and [trainMarkovChains] threw. *)
Lemma trainingPass_throw (data : list (Slot OutcomeRecord)) (s : State) :
  fst (trainingPass data s) = Throw →
  match JSArray.map_field number data with
  | None => trainingPass data s = (Throw, s)
  | Some numbers =>
    ∃ m, trainingPass data s
         = (Throw,
            set_markovChains m (set_patternDatabase (patternLoop numbers) s))
  end.
Proof.
  unfold trainingPass.
  pose proof (trainPatternRecognition_cases data s) as Hpat.
  destruct (JSArray.map_field number data) as [numbers|] eqn:Hnum.
  - rewrite (bind_normal _ _ _ _ _ Hpat).
    destruct (trainMarkovChains_frame data
                (set_patternDatabase (patternLoop numbers) s)) as [m Hm].
    destruct (trainMarkovChains data _) as [[[]|] s2] eqn:Hmk;
      simpl in Hm; subst s2.
    + rewrite (bind_normal _ _ _ _ _ Hmk).
      assert (Hd : noNullish data).
      { apply (map_field_is_Some number). by eexists. }
      destruct (trainTrendAnalyzer_normal data
                  (set_markovChains m
                     (set_patternDatabase (patternLoop numbers) s)) Hd)
        as [s3 Htr].
      rewrite (bind_normal _ _ _ _ _ Htr).
      destruct (analyzeMarketState_normal data s3 Hd) as (ms & s4 & Han).
      rewrite (bind_normal _ _ _ _ _ Han). simpl. discriminate.
    + rewrite (bind_throw _ _ _ _ Hmk). intros _. by exists m.
  - rewrite (bind_throw _ _ _ _ Hpat). done.
Qed.

Lemma trainAllModels_unfold (data : list (Slot OutcomeRecord)) (s : State) :
  isTraining s = false →
  trainAllModels data s
  = match trainingPass data (set_isTraining true s) with
    | (Normal b, s1) => (Normal b, set_isTraining false s1)
    | (Throw, s1) => (Normal false, set_isTraining false s1)
    end.
Proof.
  intros Hs. unfold trainAllModels, bind, get, modify. rewrite Hs. simpl.
  unfold try_catch_finally.
  by destruct (trainingPass data (set_isTraining true s)) as [[b|] s1].
Qed.

End TrainerFacts.

(** C4, as the code has it: when a sub-step of a training pass throws,
    [trainAllModels] catches it and returns false, and the [isTraining]
    flag is released; the trend windows and the market state are as
    before.  The two tables are as before only when the failure comes
    before the first [clear()], as it does on a null or undefined record,
    which the first statement of [trainPatternRecognition] meets; when
    [trainMarkovChains] throws, the pattern table has been rebuilt and
    the Markov table cleared and partly refilled, and they stay so. *)
Theorem trainAllModels_failure_no_rollback `{JSMath}
    (data : list (Slot OutcomeRecord)) (s : State) :
  isTraining s = false →
  fst (trainingPass data (set_isTraining true s)) = Throw →
  fst (trainAllModels data s) = Normal false
  ∧ isTraining (snd (trainAllModels data s)) = false
  ∧ trendAnalyzer (snd (trainAllModels data s)) = trendAnalyzer s
  ∧ marketState (snd (trainAllModels data s)) = marketState s
  ∧ match JSArray.map_field number data with
    | None => snd (trainAllModels data s) = s
    | Some numbers =>
      ∃ m, snd (trainAllModels data s)
           = set_markovChains m (set_patternDatabase (patternLoop numbers) s)
    end.
Proof.
  intros Hs Hthrow. rewrite (trainAllModels_unfold data s Hs).
  pose proof (trainingPass_throw data (set_isTraining true s) Hthrow) as Hcase.
  destruct (JSArray.map_field number data) as [numbers|].
  - destruct Hcase as [m ->]. simpl.
    repeat split; try done. exists m. destruct s; simpl in *. by subst.
  - rewrite Hcase. simpl. repeat split; try done.
    destruct s; simpl in *. by subst.
Qed.


Lemma trainAllModels_failure_no_rollback_witness :
  (fst (trainAllModels Sample.sparse Sample.unanimous) = Normal false
   ∧ isTraining (snd (trainAllModels Sample.sparse Sample.unanimous)) = false
   ∧ trendAnalyzer (snd (trainAllModels Sample.sparse Sample.unanimous)) = trendAnalyzer Sample.unanimous
   ∧ marketState (snd (trainAllModels Sample.sparse Sample.unanimous)) = marketState Sample.unanimous
   ∧ match JSArray.map_field number Sample.sparse with
     | None => snd (trainAllModels Sample.sparse Sample.unanimous) = Sample.unanimous
     | Some numbers =>
       ∃ m, snd (trainAllModels Sample.sparse Sample.unanimous)
            = set_markovChains m
                (set_patternDatabase (patternLoop numbers) Sample.unanimous)
     end)
  ∧ snd (trainAllModels Sample.withUndefined Sample.unanimous) = Sample.unanimous.
Proof.
  split.
  - apply (trainAllModels_failure_no_rollback Sample.sparse Sample.unanimous).
    + vm_compute. reflexivity.
    + vm_compute. reflexivity.
  - apply (trainAllModels_failure_no_rollback Sample.withUndefined Sample.unanimous).
    + vm_compute. reflexivity.
    + vm_compute. reflexivity.
Defined.

(** C4, as the claim has it, fails on a sparse array: index 1 is a hole,
    which the [map] of [trainPatternRecognition] skips and
    [data[i + order].number] of [trainMarkovChains] throws on.  The
    exception is caught and the flag released, and the pattern table,
    which had an entry for 777, is empty afterwards; the Markov table has
    changed too. *)
Lemma trainAllModels_failure_changes_tables :
  isTraining Sample.unanimous = false
  ∧ fst (trainingPass Sample.sparse (set_isTraining true Sample.unanimous)) = Throw
  ∧ fst (trainAllModels Sample.sparse Sample.unanimous) = Normal false
  ∧ isTraining (snd (trainAllModels Sample.sparse Sample.unanimous)) = false
  ∧ patternDatabase Sample.unanimous !! "777" ≠ None
  ∧ patternDatabase (snd (trainAllModels Sample.sparse Sample.unanimous)) = ∅
  ∧ patternDatabase (snd (trainAllModels Sample.sparse Sample.unanimous))
    ≠ patternDatabase Sample.unanimous
  ∧ markovChains (snd (trainAllModels Sample.sparse Sample.unanimous))
    ≠ markovChains Sample.unanimous.
Proof.
  split; [vm_compute; reflexivity |].
  split; [vm_compute; reflexivity |].
  split; [vm_compute; reflexivity |].
  split; [vm_compute; reflexivity |].
  split; [vm_compute; discriminate |].
  split; [vm_compute; reflexivity |].
  split.
  - intros Heq. apply (f_equal (λ m : gmap string Stats, m !! "777")) in Heq.
    vm_compute in Heq. discriminate.
  - intros Heq. apply (f_equal (λ m : gmap string Stats, m !! "7-7")) in Heq.
    vm_compute in Heq. discriminate.
Qed.

Section DenseTraining.
Context `{JSMath}.

Lemma for_of_normal {A} (xs : list A) (body : A → Eff unit) :
  (∀ x s, x ∈ xs → ∃ s', body x s = (Normal tt, s')) →
  ∀ s, ∃ s', for_of xs body s = (Normal tt, s').
Proof.
  induction xs as [|x xs IH]; intros Hbody s; simpl.
  - by eexists.
  - destruct (Hbody x s) as [s1 H1]; [by left |].
    rewrite (bind_normal _ _ _ _ _ H1). apply IH.
    intros y s2 Hy. apply Hbody. by right.
Qed.

Lemma dense_noNullish {A} (l : list A) : noNullish (JSArray.dense l).
Proof. unfold noNullish, JSArray.dense. apply Forall_map, Forall_forall. done. Qed.

Lemma trainMarkovChains_dense (l : list OutcomeRecord) (s : State) :
  ∃ s', trainMarkovChains (JSArray.dense l) s = (Normal tt, s').
Proof.
  unfold trainMarkovChains.
  rewrite (bind_normal _ _ s (set_markovChains ∅ s) tt) by done.
  apply for_of_normal. intros order s1 _.
  apply for_of_normal. intros i s2 Hi. apply elem_of_seq in Hi.
  destruct (proj2 (map_field_is_Some number
              (JSArray.slice i (i + order) (JSArray.dense l)))
              (noNullish_slice _ _ _ (dense_noNullish l))) as [digits Hd].
  unfold JSArray.dense in *. rewrite length_map in Hi.
  assert (Hlt : i + order < length l) by lia.
  destruct (lookup_lt_is_Some_2 l (i + order) Hlt) as [d Hlook].
  unfold bind, lift, JSArray.index_field. rewrite Hd. simpl.
  rewrite list_lookup_fmap, Hlook. simpl. by eexists.
Qed.

(** On a buffer of records, as [updateDataBuffer] keeps it, no sub-step
    throws: a failing pass needs an array with a hole or a nullish
    element. *)
Lemma trainingPass_dense_returns (l : list OutcomeRecord) (s : State) :
  ∃ s', trainingPass (JSArray.dense l) s = (Normal true, s').
Proof.
  unfold trainingPass.
  pose proof (trainPatternRecognition_cases (JSArray.dense l) s) as Hpat.
  destruct (proj2 (map_field_is_Some number (JSArray.dense l))
              (dense_noNullish l)) as [numbers Hnum].
  rewrite Hnum in Hpat. rewrite (bind_normal _ _ _ _ _ Hpat).
  destruct (trainMarkovChains_dense l
              (set_patternDatabase (patternLoop numbers) s)) as [s2 Hmk].
  rewrite (bind_normal _ _ _ _ _ Hmk).
  destruct (trainTrendAnalyzer_normal (JSArray.dense l) s2 (dense_noNullish l))
    as [s3 Htr].
  rewrite (bind_normal _ _ _ _ _ Htr).
  destruct (analyzeMarketState_normal (JSArray.dense l) s3 (dense_noNullish l))
    as (ms & s4 & Han).
  rewrite (bind_normal _ _ _ _ _ Han). by eexists.
Qed.

End DenseTraining.

(** * Further properties of the predictor *)

Section BufferMore.

Lemma freshOf_length (buf newData : list OutcomeRecord) :
  length (freshOf buf newData) ≤ length newData.
Proof. apply length_filter. Qed.

Lemma updateDataBuffer_no_overflow (newData buf : list OutcomeRecord) :
  length buf + length newData ≤ 200 →
  updateDataBuffer newData buf = reverse (freshOf buf newData) ++ buf.
Proof.
  intros Hlen. rewrite updateDataBuffer_spec. apply take_ge.
  rewrite length_app, length_reverse.
  pose proof (freshOf_length buf newData). lia.
Qed.

End BufferMore.

(** X1 ([updateDataBuffer]): feeding the same batch a second time changes
    nothing, as long as buffer and batch together hold at most 200
    records, so that the first call cut nothing off: every period of the
    batch is then in the buffer and the second call inserts no record. *)
Theorem updateDataBuffer_idempotent (newData buf : list OutcomeRecord) :
  length buf + length newData ≤ 200 →
  updateDataBuffer newData (updateDataBuffer newData buf)
  = updateDataBuffer newData buf.
Proof.
  intros Hlen. rewrite (updateDataBuffer_no_overflow newData buf Hlen).
  rewrite updateDataBuffer_spec.
  rewrite freshOf_all_present.
  - simpl. apply take_ge. rewrite length_app, length_reverse.
    pose proof (freshOf_length buf newData). lia.
  - apply Forall_forall. intros item Hitem.
    rewrite fmap_app, elem_of_app.
    destruct (decide (issueNumber item ∈ issueNumber <$> buf)) as [Hin | Hout];
      [by right | left].
    apply list_elem_of_fmap. exists item. split; [done |].
    apply elem_of_reverse. unfold freshOf. by apply list_elem_of_filter.
Qed.

Lemma updateDataBuffer_idempotent_witness :
  updateDataBuffer [Sample.r3; Sample.r3'; Sample.r1]
    (updateDataBuffer [Sample.r3; Sample.r3'; Sample.r1] [Sample.r1; Sample.r2])
  = updateDataBuffer [Sample.r3; Sample.r3'; Sample.r1] [Sample.r1; Sample.r2].
Proof.
  apply (updateDataBuffer_idempotent
           [Sample.r3; Sample.r3'; Sample.r1] [Sample.r1; Sample.r2]).
  simpl. lia.
Defined.

(** X2 ([updateDataBuffer]): each new record is put in front of the
    buffer, so the LAST record of a batch whose period the old buffer does
    not hold is the head of the new buffer: a batch is stored in reverse
    order. *)
Theorem updateDataBuffer_last_fresh_is_head
    (earlier : list OutcomeRecord) (item : OutcomeRecord)
    (buf : list OutcomeRecord) :
  issueNumber item ∉ issueNumber <$> buf →
  head (updateDataBuffer (earlier ++ [item]) buf) = Some item.
Proof.
  intros Hfresh. rewrite updateDataBuffer_spec. unfold freshOf.
  rewrite filter_app, filter_cons, filter_nil.
  destruct (decide _) as [_ | Hn]; [| contradiction].
  rewrite reverse_snoc. reflexivity.
Qed.

Lemma updateDataBuffer_last_fresh_is_head_witness :
  head (updateDataBuffer ([Sample.r1; Sample.r2] ++ [Sample.r3]) [Sample.r1])
  = Some Sample.r3.
Proof.
  apply (updateDataBuffer_last_fresh_is_head
           [Sample.r1; Sample.r2] Sample.r3 [Sample.r1]).
  apply (bool_decide_unpack _). vm_compute. reflexivity.
Defined.

(** X3 ([updateDataBuffer]): every record of the new buffer is a record of
    the batch whose period the old buffer did not hold, or a record of the
    old buffer; nothing else gets in, and no record of a period already
    held is taken from the batch. *)
Theorem updateDataBuffer_records_from_inputs
    (newData buf : list OutcomeRecord) (r : OutcomeRecord) :
  r ∈ updateDataBuffer newData buf →
  (r ∈ newData ∧ issueNumber r ∉ issueNumber <$> buf) ∨ r ∈ buf.
Proof.
  rewrite updateDataBuffer_spec. intros Hin.
  apply elem_of_take in Hin as (i & Hin & _).
  apply list_elem_of_lookup_2 in Hin.
  apply elem_of_app in Hin as [Hin | Hin]; [left | by right].
  rewrite elem_of_reverse in Hin. unfold freshOf in Hin.
  rewrite list_elem_of_filter in Hin. tauto.
Qed.

Lemma updateDataBuffer_records_from_inputs_witness :
  (Sample.r3 ∈ [Sample.r3; Sample.r1]
   ∧ issueNumber Sample.r3 ∉ issueNumber <$> [Sample.r2])
  ∨ Sample.r3 ∈ [Sample.r2].
Proof.
  apply (updateDataBuffer_records_from_inputs
           [Sample.r3; Sample.r1] [Sample.r2] Sample.r3).
  vm_compute. right. left.
Defined.

Section DictionaryFacts.

Lemma lookupKey_assignKey_eq {V} (key : string) (v : V) (obj : list (string * V)) :
  lookupKey key (assignKey key v obj) = Some v.
Proof.
  induction obj as [|[k x] obj IH]; simpl.
  - by rewrite bool_decide_true.
  - case_bool_decide as Hk; simpl.
    + by rewrite bool_decide_true.
    + by rewrite bool_decide_false.
Qed.

Lemma lookupKey_assignKey_ne {V} (key other : string) (v : V)
    (obj : list (string * V)) :
  other ≠ key → lookupKey other (assignKey key v obj) = lookupKey other obj.
Proof.
  intros Hne. induction obj as [|[k x] obj IH]; simpl.
  - by rewrite bool_decide_false.
  - case_bool_decide as Hk; simpl.
    + subst. by rewrite !bool_decide_false by done.
    + case_bool_decide; [done | exact IH].
Qed.

End DictionaryFacts.

Lemma updateModelWeights_performance_entry_aux (s : State) (modelName : string)
    (wasCorrect : bool) :
  match lookupKey modelName (modelPerformance s) with
  | None => updateModelWeights modelName wasCorrect s = s
  | Some perf =>
    lookupKey modelName
      (modelPerformance (updateModelWeights modelName wasCorrect s))
    = Some (updatePerf wasCorrect perf)
    ∧ ∀ other : string,
        other ≠ modelName →
        lookupKey other
          (modelPerformance (updateModelWeights modelName wasCorrect s))
        = lookupKey other (modelPerformance s)
  end.
Proof.
  unfold updateModelWeights.
  destruct (lookupKey modelName (modelPerformance s)) as [perf|]; [| done].
  simpl. split.
  - apply lookupKey_assignKey_eq.
  - intros other Hne. by apply lookupKey_assignKey_ne.
Qed.


Section WeightRange.
Local Open Scope Q_scope.

Lemma sum_bounds_element (l : list Q) (x : Q) :
  Forall (λ y, 0 <= y) l → x ∈ l → x <= JSNum.sum l.
Proof.
  intros Hall Hin. induction Hall as [|y l Hy Hl IH].
  - by apply elem_of_nil in Hin.
  - rewrite sum_cons. pose proof (sum_nonneg l Hl).
    apply elem_of_cons in Hin as [-> | Hin]; [lra |].
    specialize (IH Hin). lra.
Qed.

End WeightRange.

(** X5 ([updateModelWeights]): on a well-formed state a call that names a
    known model keeps the model names of both dictionaries, in their
    order, and leaves every weight between 0 and 1. *)
Theorem updateModelWeights_weights_in_unit_interval (s : State)
    (modelName : string) (wasCorrect : bool) :
  weightsWellFormed s →
  is_Some (lookupKey modelName (modelPerformance s)) →
  let s' := updateModelWeights modelName wasCorrect s in
  map fst (modelWeights s') = map fst (modelWeights s)
  ∧ map fst (modelPerformance s') = map fst (modelPerformance s)
  ∧ Forall (λ kv, (0 <= snd kv)%Q ∧ (snd kv <= 1)%Q) (modelWeights s').
Proof.
  intros Hwf [perf Hperf] s'. subst s'.
  destruct (updateModelWeights_unfold s modelName wasCorrect perf Hwf Hperf)
    as (blended & -> & Hpos & Hnn & Hbk & Hmpk & Hacc).
  simpl. split; [| split].
  - rewrite map_map. simpl. exact Hbk.
  - exact Hmpk.
  - apply Forall_map, Forall_forall. intros [k w] Hkw. simpl.
    assert (Hw0 : (0 <= w)%Q).
    { exact (proj1 (Forall_forall _ _) Hnn (k, w) Hkw). }
    split; [by apply Qdiv_nonneg |].
    apply Qle_shift_div_r; [done |]. rewrite Qmult_1_l.
    apply sum_bounds_element.
    + apply Forall_map. exact Hnn.
    + apply list_elem_of_fmap. by exists (k, w).
Qed.

Lemma updateModelWeights_weights_in_unit_interval_witness :
  let s' := updateModelWeights "quantum" false initialState in
  map fst (modelWeights s') = map fst (modelWeights initialState)
  ∧ map fst (modelPerformance s') = map fst (modelPerformance initialState)
  ∧ Forall (λ kv, (0 <= snd kv)%Q ∧ (snd kv <= 1)%Q) (modelWeights s').
Proof.
  apply (updateModelWeights_weights_in_unit_interval initialState "quantum" false).
  - exact initialState_weightsWellFormed.
  - vm_compute. eexists. reflexivity.
Defined.

Section Counters.
Local Open Scope Q_scope.

Lemma adapt_snoc (calls : list (string * bool)) (c : string * bool) (s : State) :
  adapt (calls ++ [c]) s = updateModelWeights (fst c) (snd c) (adapt calls s).
Proof. unfold adapt. by rewrite foldl_app. Qed.

Lemma adapt_counters (model : string) (calls : list (string * bool)) :
  model ∈ map fst CONFIG.INITIAL_WEIGHTS →
  ∃ perf : Perf,
    lookupKey model (modelPerformance (adapt calls initialState)) = Some perf
    ∧ perf_total perf = outcomesOf model calls
    ∧ wins perf = correctOf model calls
    ∧ 0 <= recentAccuracy perf ∧ recentAccuracy perf <= 1.
Proof.
  intros Hmodel. induction calls as [|[name b] calls IH] using rev_ind.
  - assert (Hl : is_Some (lookupKey model (modelPerformance initialState))).
    { by apply lookupKey_is_Some. }
    destruct Hl as [perf Hl]. exists perf. split; [done |].
    revert Hl. simpl. repeat case_bool_decide; intros [= <-]; simpl;
      repeat split; try done; lra.
  - destruct IH as (perf & Hl & Ht & Hw & Ha0 & Ha1).
    rewrite adapt_snoc. simpl.
    unfold outcomesOf, correctOf in *. rewrite !filter_app, !length_app.
    rewrite !filter_cons, !filter_nil. simpl.
    pose proof (updateModelWeights_performance_entry_aux
                  (adapt calls initialState) name b) as Hentry.
    destruct (decide (name = model)) as [-> | Hne].
    + rewrite Hl in Hentry. destruct Hentry as [Hentry _].
      eexists. split; [exact Hentry |]. simpl.
      destruct b; simpl.
      * destruct (decide _) as [_ | Hn]; [| by destruct Hn].
        simpl. repeat split; try lia; lra.
      * destruct (decide _) as [[_ [=]] | _].
        simpl. repeat split; try lia; lra.
    + exists perf.
      destruct (decide (name = model ∧ b = true)) as [[? _] | _]; [done |].
      simpl. rewrite !Nat.add_0_r. repeat split; try done.
      destruct (lookupKey name (modelPerformance (adapt calls initialState)));
        [| by rewrite Hentry].
      destruct Hentry as [_ Hother]. rewrite Hother; [done | congruence].
Qed.

End Counters.

Section EnsembleRanges.
Local Open Scope Q_scope.

Lemma shapeConfidence_range (s : State) (agreement rawConfidence : Q) :
  0.50 <= shapeConfidence s agreement rawConfidence
  ∧ shapeConfidence s agreement rawConfidence <= 0.92.
Proof.
  unfold shapeConfidence. split.
  - apply Q.le_max_l.
  - apply Q.max_lub; [lra | apply Q.le_min_l].
Qed.

Lemma round_percent (x lo hi : Q) (zlo zhi : Z) :
  lo <= x → x <= hi →
  JSNum.round (lo * 100) = zlo → JSNum.round (hi * 100) = zhi →
  (zlo ≤ JSNum.round (x * 100) ≤ zhi)%Z.
Proof.
  intros Hlo Hhi <- <-. unfold JSNum.round.
  split; apply Qfloor_resp_le; lra.
Qed.

Lemma agreementOf_range (predictions : list (string * Prediction)) :
  0.5 <= agreementOf predictions ∧ agreementOf predictions <= 1.
Proof.
  unfold agreementOf. case_bool_decide as Hn; [| lra].
  set (n := length (map snd predictions)) in *.
  set (b := length (filter (λ p, prediction p = BIG) (map snd predictions))).
  assert (Hb : (b ≤ n)%nat) by apply length_filter.
  assert (Hnq : 0 < JSNum.ofNat n).
  { unfold JSNum.ofNat, Qlt. simpl. lia. }
  split.
  - apply Qle_shift_div_l; [done |].
    unfold JSNum.ofNat, Qle. simpl. lia.
  - apply Qle_shift_div_r; [done |].
    unfold JSNum.ofNat, Qle. simpl. lia.
Qed.

End EnsembleRanges.

(** X7 ([generateEnsemblePrediction]): the confidence reported in a
    decision is an integer from 50 to 92 and the agreement an integer from
    50 to 100, whatever the state and whatever the six models
    answered. *)
Theorem aggregate_confidence_and_agreement_ranges
    (s : State) (predictions : list (string * Prediction)) :
  (50 ≤ d_confidence (aggregate s predictions) ≤ 92)%Z
  ∧ (50 ≤ agreement (aggregate s predictions) ≤ 100)%Z.
Proof.
  unfold aggregate. destruct (tierOf _ _) as [t r]. simpl. split.
  - destruct (shapeConfidence_range s (agreementOf predictions)
                (rawConfidenceOf (ensembleScores (modelWeights s) predictions)))
      as [Hlo Hhi].
    by apply (round_percent _ 0.50 0.92).
  - destruct (agreementOf_range predictions) as [Hlo Hhi].
    by apply (round_percent _ 0.5 1).
Qed.

(** X8 ([generateEnsemblePrediction], [applyRecoveryMode]): the label of a
    decision is the opposite of the weighted vote in recovery mode
    ANTI_TREND and the weighted vote itself in every other mode; with at
    most one loss in a row it is always the weighted vote. *)
Theorem aggregate_label_flipped_only_by_ANTI_TREND
    (s : State) (predictions : list (string * Prediction)) :
  let raw := rawPredictionOf (ensembleScores (modelWeights s) predictions) in
  (getRecoveryMode s = ANTI_TREND →
   d_prediction (aggregate s predictions) = flipLabel raw
   ∧ d_prediction (aggregate s predictions) ≠ raw)
  ∧ (getRecoveryMode s ≠ ANTI_TREND →
     d_prediction (aggregate s predictions) = raw)
  ∧ (consecutiveLosses s ≤ 1 → d_prediction (aggregate s predictions) = raw).
Proof.
  intros raw. unfold aggregate. destruct (tierOf _ _) as [t r]. simpl.
  fold raw. split; [| split].
  - intros ->. simpl. split; [done |]. by destruct raw.
  - intros Hmode. by destruct (getRecoveryMode s).
  - intros Hloss. unfold getRecoveryMode.
    rewrite (bool_decide_false (3 ≤ consecutiveLosses s)) by lia.
    rewrite (bool_decide_false (2 ≤ consecutiveLosses s)) by lia.
    done.
Qed.

Lemma aggregate_label_flipped_only_by_ANTI_TREND_witness :
  let raw := rawPredictionOf
               (ensembleScores (modelWeights Sample.losing) Sample.unanimousOutputs) in
  d_prediction (aggregate Sample.losing Sample.unanimousOutputs) = flipLabel raw
  ∧ d_prediction (aggregate Sample.losing Sample.unanimousOutputs) ≠ raw.
Proof.
  apply (aggregate_label_flipped_only_by_ANTI_TREND
           Sample.losing Sample.unanimousOutputs).
  vm_compute. reflexivity.
Defined.

(** X9 ([getRecoveryMode]): the decision table of the recovery mode.  With
    fewer than two losses in a row the mode is NORMAL; MARTINGALE_SAFE is
    exactly three or more losses with volatility under 0.5; CAUTION is
    exactly two or more losses on a market not flagged exploitable, the
    MARTINGALE_SAFE case excluded; NORMAL besides the first case needs an
    exploitable market whose trend is not a STRONG one. *)
Theorem getRecoveryMode_decision_table (s : State) :
  let losses := consecutiveLosses s in
  let ms := marketState s in
  (losses ≤ 1 → getRecoveryMode s = NORMAL)
  ∧ (getRecoveryMode s = MARTINGALE_SAFE
     ↔ 3 ≤ losses ∧ (volatility ms < 0.5)%Q)
  ∧ (getRecoveryMode s = CAUTION
     ↔ 2 ≤ losses ∧ exploitable ms = false
       ∧ ¬ (3 ≤ losses ∧ (volatility ms < 0.5)%Q))
  ∧ (getRecoveryMode s = NORMAL
     ↔ losses ≤ 1
       ∨ (exploitable ms = true ∧ includes (recentTrend ms) "STRONG" = false
          ∧ ¬ (3 ≤ losses ∧ (volatility ms < 0.5)%Q))).
Proof.
  intros losses ms. unfold getRecoveryMode. fold losses ms.
  assert (Hvol : JSNum.ltb (volatility ms) 0.5 = true ↔ (volatility ms < 0.5)%Q).
  { apply (gtb_true 0.5 (volatility ms)). }
  destruct (JSNum.ltb (volatility ms) 0.5) eqn:Hv;
    destruct (exploitable ms) eqn:He;
    destruct (includes (recentTrend ms) "STRONG") eqn:Hi;
    repeat case_bool_decide; simpl;
    repeat split; try done; try lia; try tauto;
    try (intros; exfalso; lia);
    try (intros [? ?]; try tauto; try lia; try discriminate);
    try (intros (? & ? & ?); try tauto; try lia; try discriminate).
  all: try (rewrite <- Hvol in *; intuition (try lia; try discriminate)).
Qed.

Lemma tierOf_cases (conf agreement : Q) :
  match fst (tierOf conf agreement) with
  | ULTRA_HIGH => (78 <= conf)%Q ∧ (0.8 <= agreement)%Q
  | HIGH => (70 <= conf)%Q ∧ (0.7 <= agreement)%Q
            ∧ ¬ ((78 <= conf)%Q ∧ (0.8 <= agreement)%Q)
  | MEDIUM => (63 <= conf)%Q ∧ (0.6 <= agreement)%Q
              ∧ ¬ ((70 <= conf)%Q ∧ (0.7 <= agreement)%Q)
  | LOW => (55 <= conf)%Q
           ∧ ¬ ((63 <= conf)%Q ∧ (0.6 <= agreement)%Q)
  | VERY_LOW => (conf < 55)%Q
  end.
Proof.
  unfold tierOf.
  destruct (JSNum.geb conf 78) eqn:H78; destruct (JSNum.geb agreement 0.8) eqn:H8;
    destruct (JSNum.geb conf 70) eqn:H70; destruct (JSNum.geb agreement 0.7) eqn:H7;
    destruct (JSNum.geb conf 63) eqn:H63; destruct (JSNum.geb agreement 0.6) eqn:H6;
    destruct (JSNum.geb conf 55) eqn:H55; simpl;
    repeat match goal with
           | H : JSNum.geb _ _ = true |- _ => apply geb_true in H
           | H : JSNum.geb _ _ = false |- _ => apply geb_false in H
           end;
    repeat split; try lra; try (intros [? ?]; lra).
Qed.

Lemma round_ge (x : Q) (z : Z) : (inject_Z z <= x)%Q → (z ≤ JSNum.round x)%Z.
Proof.
  intros Hx. unfold JSNum.round.
  rewrite <- (Qfloor_Z z). apply Qfloor_resp_le. lra.
Qed.

Lemma round_le_of_lt (x : Q) (z : Z) : (x < inject_Z z)%Q → (JSNum.round x ≤ z)%Z.
Proof.
  intros Hx. unfold JSNum.round.
  pose proof (Qfloor_le (x + (1 # 2))) as Hfl.
  assert (Hlt : (inject_Z (Qfloor (x + (1 # 2))) < inject_Z z + (1 # 2))%Q) by lra.
  revert Hlt. generalize (Qfloor (x + (1 # 2))). intros a.
  unfold Qlt, Qplus, inject_Z. simpl. lia.
Qed.

(** X10 ([generateEnsemblePrediction]): the tier of a decision against the
    two percentages reported with it.  ULTRA_HIGH comes with a confidence
    of at least 78 and an agreement of at least 80, HIGH with 70 and 70,
    MEDIUM with 63 and 60, LOW with a confidence of at least 55, and
    VERY_LOW with a confidence of at most 55 (the tier is taken before
    rounding, the reported value after). *)
Theorem aggregate_tier_and_reported_values
    (s : State) (predictions : list (string * Prediction)) :
  let d := aggregate s predictions in
  match tier d with
  | ULTRA_HIGH => (78 ≤ d_confidence d)%Z ∧ (80 ≤ agreement d)%Z
  | HIGH => (70 ≤ d_confidence d)%Z ∧ (70 ≤ agreement d)%Z
  | MEDIUM => (63 ≤ d_confidence d)%Z ∧ (60 ≤ agreement d)%Z
  | LOW => (55 ≤ d_confidence d)%Z
  | VERY_LOW => (d_confidence d ≤ 55)%Z
  end.
Proof.
  intros d. subst d. unfold aggregate.
  set (a := agreementOf predictions).
  set (f := shapeConfidence s a _).
  pose proof (tierOf_cases (f * 100) a) as Hcases.
  destruct (tierOf (f * 100) a) as [t r]. cbn [fst] in Hcases.
  cbn [tier d_confidence agreement]. clearbody f a.
  destruct t.
  - destruct Hcases as [Hc Ha]. split; apply round_ge; unfold inject_Z; lra.
  - destruct Hcases as (Hc & Ha & _). split; apply round_ge; unfold inject_Z; lra.
  - destruct Hcases as (Hc & Ha & _). split; apply round_ge; unfold inject_Z; lra.
  - destruct Hcases as [Hc _]. apply round_ge; unfold inject_Z; lra.
  - apply round_le_of_lt; unfold inject_Z; lra.
Qed.

Section RawConfidence.
Local Open Scope Q_scope.

Lemma or_default_nonneg (x d : Q) : 0 <= x → 0 <= d → 0 <= JSNum.or_default x d.
Proof. intros Hx Hd. unfold JSNum.or_default. by destruct (Qeq_bool x 0). Qed.

Lemma lookup_weight_nonneg (model : string) (mw : list (string * Q)) :
  Forall (λ kv, 0 <= snd kv) mw → 0 <= default 0 (lookupKey model mw).
Proof.
  induction 1 as [|[k w] mw Hw _ IH]; simpl; [lra |].
  case_bool_decide; [done | exact IH].
Qed.

Lemma ensembleScores_nonneg (mw : list (string * Q))
    (predictions : list (string * Prediction)) :
  Forall (λ kv, 0 <= snd kv) mw →
  Forall (λ mp, 0 <= confidence (snd mp)) predictions →
  0 <= fst (ensembleScores mw predictions)
  ∧ 0 <= snd (ensembleScores mw predictions).
Proof.
  intros Hmw Hp. unfold ensembleScores.
  assert (Hgen : ∀ acc : Q * Q, 0 <= fst acc → 0 <= snd acc →
            let r := foldl (λ acc mp,
                let '(bigScore, smallScore) := acc in
                let '(model, pred) := mp in
                let weight := JSNum.or_default
                                (default 0 (lookupKey model mw)) 0.15 in
                let score := JSNum.or_default (confidence pred) 0.5 * weight in
                if Label_eqb (prediction pred) BIG then (bigScore + score, smallScore)
                else (bigScore, smallScore + score)) acc predictions in
            0 <= fst r ∧ 0 <= snd r).
  { induction Hp as [|[model pred] rest Hc _ IH]; intros [b sm] Hb Hs; simpl;
      [done |].
    simpl in Hb, Hs, Hc.
    assert (Hscore : 0 <= JSNum.or_default (confidence pred) 0.5
                          * JSNum.or_default (default 0 (lookupKey model mw)) 0.15).
    { apply Qmult_le_0_compat; apply or_default_nonneg; try lra; try done.
      by apply lookup_weight_nonneg. }
    set (score := JSNum.or_default (confidence pred) 0.5
                  * JSNum.or_default (default 0 (lookupKey model mw)) 0.15) in *.
    destruct (Label_eqb (prediction pred) BIG); apply IH;
      cbn [fst snd]; lra. }
  apply (Hgen (0, 0)); simpl; lra.
Qed.

Lemma rawConfidenceOf_range (scores : Q * Q) :
  0 <= fst scores → 0 <= snd scores →
  0.5 <= rawConfidenceOf scores ∧ rawConfidenceOf scores <= 1.
Proof.
  intros Hb Hs. unfold rawConfidenceOf.
  destruct (JSNum.gtb (fst scores + snd scores) 0) eqn:Htot; [| lra].
  apply gtb_true in Htot. split.
  - apply Qle_shift_div_l; [done |].
    destruct (Q.max_spec (fst scores) (snd scores)) as [[Hm ->] | [Hm ->]]; lra.
  - apply Qle_shift_div_r; [done |].
    destruct (Q.max_spec (fst scores) (snd scores)) as [[Hm ->] | [Hm ->]]; lra.
Qed.

End RawConfidence.

(** X11 ([generateEnsemblePrediction]): with non-negative weights and
    non-negative model confidences the raw confidence, the winning share
    of the weighted vote, lies between 0.5 and 1. *)
Theorem rawConfidence_between_half_and_one
    (mw : list (string * Q)) (predictions : list (string * Prediction)) :
  Forall (λ kv, (0 <= snd kv)%Q) mw →
  Forall (λ mp, (0 <= confidence (snd mp))%Q) predictions →
  (0.5 <= rawConfidenceOf (ensembleScores mw predictions))%Q
  ∧ (rawConfidenceOf (ensembleScores mw predictions) <= 1)%Q.
Proof.
  intros Hmw Hp.
  destruct (ensembleScores_nonneg mw predictions Hmw Hp) as [Hb Hs].
  by apply rawConfidenceOf_range.
Qed.

Lemma rawConfidence_between_half_and_one_witness :
  (0.5 <= rawConfidenceOf
            (ensembleScores CONFIG.INITIAL_WEIGHTS Sample.unanimousOutputs))%Q
  ∧ (rawConfidenceOf
       (ensembleScores CONFIG.INITIAL_WEIGHTS Sample.unanimousOutputs) <= 1)%Q.
Proof.
  apply (rawConfidence_between_half_and_one
           CONFIG.INITIAL_WEIGHTS Sample.unanimousOutputs).
  - repeat constructor; vm_compute; discriminate.
  - repeat constructor; vm_compute; discriminate.
Defined.

(** X12 ([generateEnsemblePrediction]): a call changes nothing in the
    state but the LSTM cell.  A decision lists the answers of the six
    models in the order pattern, markov, frequency, neural, trend,
    quantum, and carries the model weights and the trend label of the
    market state as they were at the call. *)
Theorem generateEnsemblePrediction_frame `{JSMath}
    (data : list OutcomeRecord) (s : State) :
  let result := generateEnsemblePrediction data s in
  (∃ c : option LSTMCell, snd result = set_lstmCell c s)
  ∧ ∀ d : EnsembleDecision,
      fst result = Normal d →
      map fst (modelOutputs d)
      = ["pattern"; "markov"; "frequency"; "neural"; "trend"; "quantum"]
      ∧ weights d = modelWeights s
      ∧ marketCondition d = recentTrend (marketState s).
Proof.
  intros result. subst result.
  destruct (runPredictors_frame data s) as [c Hc].
  unfold generateEnsemblePrediction, bind, get, ret.
  destruct (runPredictors data s) as [[predictions|] s1] eqn:Hrun;
    simpl in Hc; subst s1; simpl.
  - split; [by exists c |]. intros d [= <-].
    unfold aggregate. destruct (tierOf _ _) as [t r]. simpl.
    split; [| done].
    revert Hrun. unfold runPredictors, bind, get, lift, ret.
    destruct (predictWithMarkov (markovChains s) data) as [markov|];
      [| discriminate].
    simpl. destruct (predictWithLSTM data s) as [[neural|] s2];
      [| discriminate].
    by intros [= <- _].
  - split; [by exists c | discriminate].
Qed.

(** X13 ([predictWithTrend]): the trend model always answers with source
    "trend" and a confidence from 0.52 to 0.78. *)
Theorem predictWithTrend_confidence_range (t : TrendAnalyzer) :
  (0.52 <= confidence (predictWithTrend t))%Q
  ∧ (confidence (predictWithTrend t) <= 0.78)%Q
  ∧ source (predictWithTrend t) = "trend".
Proof.
  unfold predictWithTrend.
  destruct (JSNum.gtb _ _); simpl; (split; [apply Q.le_max_l |]);
    (split; [| done]); (apply Q.max_lub; [lra | apply Q.le_min_r]).
Qed.

Section FrequencyFacts.
Local Open Scope Q_scope.

Lemma frequencyWindow_nonneg (data : list OutcomeRecord) (window : nat) :
  match frequencyWindow data window with
  | Some v => 0 <= w_confidence v ∧ 0 <= weight v
  | None => True
  end.
Proof.
  unfold frequencyWindow. case_bool_decide; [done |].
  cbn [w_confidence weight]. split.
  - apply Qmult_le_0_compat; [apply Qabs_nonneg | lra].
  - unfold Qdiv. rewrite Qmult_1_l. apply Qinv_le_0_compat.
    unfold JSNum.ofNat, Qle. simpl. lia.
Qed.

Lemma sideScore_nonneg (side : Label) (votes : list WindowVote) :
  Forall (λ v, 0 <= w_confidence v ∧ 0 <= weight v) votes →
  0 <= sideScore side votes.
Proof.
  intros Hall. unfold sideScore.
  assert (Hgen : ∀ (l : list WindowVote) (a : Q),
            Forall (λ v, 0 <= w_confidence v ∧ 0 <= weight v) l → 0 <= a →
            0 <= foldl (λ sum p, sum + w_confidence p * weight p) a l).
  { induction l as [|v l IH]; intros a Hl Ha; simpl; [done |].
    apply Forall_cons in Hl as [[Hc Hw] Hl]. apply IH; [done |].
    pose proof (Qmult_le_0_compat _ _ Hc Hw). lra. }
  apply Hgen; [| lra].
  apply Forall_forall. intros v Hv. apply list_elem_of_filter in Hv as [_ Hv].
  exact (proj1 (Forall_forall _ _) Hall v Hv).
Qed.

Lemma frequency_votes_nonneg (data : list OutcomeRecord) (windows : list nat) :
  Forall (λ v, 0 <= w_confidence v ∧ 0 <= weight v)
         (omap (frequencyWindow data) windows).
Proof.
  apply Forall_forall. intros v Hv. apply list_elem_of_omap in Hv as (w & _ & Hw).
  pose proof (frequencyWindow_nonneg data w) as Hnn. by rewrite Hw in Hnn.
Qed.

End FrequencyFacts.

(** X14 ([predictWithFrequency]): below ten records the answer is BIG at
    0.50 with source "frequency_insufficient"; from ten records on the
    source is "frequency" and the confidence lies between 0.55 and
    0.75. *)
Theorem predictWithFrequency_confidence_range (data : list OutcomeRecord) :
  if bool_decide (length data < 10)
  then predictWithFrequency data
       = {| prediction := BIG; confidence := 0.50%Q;
            source := "frequency_insufficient" |}
  else source (predictWithFrequency data) = "frequency"
       ∧ (0.55 <= confidence (predictWithFrequency data))%Q
       ∧ (confidence (predictWithFrequency data) <= 0.75)%Q.
Proof.
  case_bool_decide as Hlen.
  - unfold predictWithFrequency, frequencyWindow. simpl.
    by rewrite !bool_decide_true by lia.
  - unfold predictWithFrequency.
    pose proof (frequency_votes_nonneg data [10; 20; 30]) as Hvotes.
    destruct (omap (frequencyWindow data) [10; 20; 30]) as [|v votes] eqn:Hom.
    + exfalso. revert Hom. simpl. unfold frequencyWindow at 1.
      rewrite bool_decide_false by done. simpl.
      by destruct (frequencyWindow data 20); destruct (frequencyWindow data 30).
    + simpl. split; [done |].
      pose proof (sideScore_nonneg BIG (v :: votes) Hvotes) as Hb.
      pose proof (sideScore_nonneg SMALL (v :: votes) Hvotes) as Hs.
      destruct (rawConfidenceOf_range
                  (sideScore BIG (v :: votes), sideScore SMALL (v :: votes))
                  Hb Hs) as [Hlo Hhi].
      unfold rawConfidenceOf in Hlo, Hhi. simpl in Hlo, Hhi.
      split.
      * apply Q.min_glb; lra.
      * apply Q.le_min_r.
Qed.






Section TableFacts.

Lemma max_of_alter_S (n : nat) (cs : list nat) :
  JSArray.max_of (alter S n cs) ≤ S (JSArray.max_of cs).
Proof.
  unfold JSArray.max_of.
  revert n. induction cs as [|c cs IH]; intros n; [by destruct n; cbn; lia |].
  destruct n as [|n]; cbn.
  - lia.
  - specialize (IH n). cbn in IH. lia.
Qed.

Lemma incrCount_ok (next : option nat) (cs : list nat) :
  length (incrCount next cs) = length cs
  ∧ JSArray.max_of (incrCount next cs) ≤ S (JSArray.max_of cs).
Proof.
  destruct next as [n|]; simpl.
  - split; [apply length_alter | apply max_of_alter_S].
  - split; [done | lia].
Qed.

Lemma record_tableOK (key : string) (next : option nat) (tbl : gmap string Stats) :
  tableOK tbl → tableOK (record key next tbl).
Proof.
  intros Htbl. unfold record.
  assert (Hbump : ∀ st, (statsOK st ∨ st = newStats) →
            statsOK {| counts := incrCount next (counts st);
                       total := S (total st) |}).
  { intros st Hst. destruct (incrCount_ok next (counts st)) as [Hlen Hmax].
    unfold statsOK. simpl. rewrite Hlen.
    destruct Hst as [(Hl & Hm & Ht) | ->].
    - repeat split; lia.
    - change (JSArray.max_of (counts newStats)) with 0 in Hmax.
      change (length (counts newStats)) with 10. change (total newStats) with 0.
      repeat split; lia. }
  destruct (tbl !! key) as [st|] eqn:Hlook.
  - rewrite Hlook. apply map_Forall_insert_2; [| done].
    apply Hbump. left. exact (Htbl key st Hlook).
  - rewrite lookup_insert_eq. rewrite insert_insert_eq.
    apply map_Forall_insert_2; [| done]. apply Hbump. by right.
Qed.


Lemma for_of_invariant {A} (I : State → Prop) (xs : list A) (body : A → Eff unit) :
  (∀ x s, I s → I (snd (body x s))) →
  ∀ s, I s → I (snd (for_of xs body s)).
Proof.
  intros Hbody. induction xs as [|x xs IH]; intros s Hs; simpl; [done |].
  unfold bind. specialize (Hbody x s Hs).
  destruct (body x s) as [[[]|] s1]; simpl in *; [by apply IH | done].
Qed.

Lemma trainMarkovChains_tableOK (data : list (Slot OutcomeRecord)) (s : State) :
  tableOK (markovChains (snd (trainMarkovChains data s))).
Proof.
  unfold trainMarkovChains.
  match goal with
  | |- context [for_of ?xs ?body] =>
    assert (Hloop : ∀ s0, tableOK (markovChains s0) →
                          tableOK (markovChains (snd (for_of xs body s0))))
  end.
  { apply (for_of_invariant (λ s0, tableOK (markovChains s0))).
    intros order s1 Hs1.
    apply (for_of_invariant (λ s0, tableOK (markovChains s0))); [| exact Hs1].
    intros i s2 Hs2.
    unfold bind, lift.
    destruct (JSArray.map_field number _) as [digits|]; [| done].
    cbn [ret]. 
    destruct (JSArray.index_field number data (i + order)) as [next|]; [| done].
    cbn. by apply record_tableOK. }
  apply (Hloop (set_markovChains ∅ s)). apply map_Forall_empty.
Qed.

End TableFacts.

Section TrainerFunction.
Context `{JSMath}.

Lemma for_of_tableEff {A} (xs : list A) (body : A → Eff unit) :
  (∀ x, tableEff (body x)) → tableEff (for_of xs body).
Proof.
  intros Hbody. induction xs as [|x xs [f2 H2]]; simpl.
  - exists (λ m, (Normal tt, m)). intros s. simpl. by destruct s.
  - destruct (Hbody x) as [f1 H1].
    exists (λ m, match f1 m with
                 | (Normal _, m1) => f2 m1
                 | (Throw, m1) => (Throw, m1)
                 end).
    intros s. unfold bind. rewrite H1.
    destruct (f1 (markovChains s)) as [[[]|] m1]; simpl; [| done].
    rewrite H2. reflexivity.
Qed.

(** The completion of [trainMarkovChains] and the table it leaves are
    functions of the data alone; nothing else is written. *)
Lemma trainMarkovChains_function (data : list (Slot OutcomeRecord)) :
  ∃ (r : Completion unit) (m : gmap string Stats),
    ∀ s, trainMarkovChains data s = (r, set_markovChains m s).
Proof.
  unfold trainMarkovChains.
  match goal with
  | |- context [for_of ?xs ?body] =>
    assert (Hloop : tableEff (for_of xs body))
  end.
  { apply for_of_tableEff. intros order. apply for_of_tableEff. intros i.
    exists (λ m,
      match JSArray.map_field number (JSArray.slice i (i + order) data) with
      | None => (Throw, m)
      | Some digits =>
        match JSArray.index_field number data (i + order) with
        | None => (Throw, m)
        | Some next => (Normal tt, record (JSArray.join "-" digits) (Some next) m)
        end
      end).
    intros s. unfold bind, lift.
    destruct (JSArray.map_field number _) as [digits|]; simpl;
      [| by destruct s].
    destruct (JSArray.index_field number data (i + order)) as [next|]; simpl;
      [done | by destruct s]. }
  destruct Hloop as [f Hf].
  exists (fst (f ∅)), (snd (f ∅)). intros s.
  unfold bind, modify. rewrite Hf. reflexivity.
Qed.

Lemma map_field_dense {A B} (f : A → B) (l : list A) :
  JSArray.map_field f (JSArray.dense l) = Some (map (λ a, Some (f a)) l).
Proof.
  unfold JSArray.dense. induction l as [|a l IH]; [done |].
  cbn [map JSArray.map_field]. by rewrite IH.
Qed.

Lemma trainTrendAnalyzer_dense (l : list OutcomeRecord) (s : State) :
  trainTrendAnalyzer (JSArray.dense l) s
  = (Normal tt, set_trendAnalyzer (trendWindows l) s).
Proof.
  unfold trainTrendAnalyzer, bind, lift. rewrite map_field_dense.
  unfold trendWindows, JSArray.slice. simpl. by rewrite !drop_0.
Qed.

(** The market state [analyzeMarketState] computes is a function of the
    data alone. *)
Lemma analyzeMarketState_function (data : list (Slot OutcomeRecord)) :
  noNullish data →
  ∃ ms : MarketState,
    ∀ s, analyzeMarketState data s
         = if bool_decide (length data < 30) then (Normal (marketState s), s)
           else (Normal ms, set_marketState ms s).
Proof.
  intros Hd. unfold analyzeMarketState, bind, get, lift.
  destruct (proj2 (map_field_is_Some binary
              (JSArray.slice 0 (50 `min` length data) data))
              (noNullish_slice _ _ _ Hd)) as [bits Hbits].
  destruct (proj2 (map_field_is_Some number
              (JSArray.slice 0 (50 `min` length data) data))
              (noNullish_slice _ _ _ Hd)) as [nums Hnums].
  rewrite Hbits, Hnums. cbn [ret].
  destruct (calculateStats nums) as [[mean std] variance].
  eexists. intros s. case_bool_decide; reflexivity.
Qed.

(** A pass on a buffer of records, in closed form. *)
Lemma trainingPass_dense_function (l : list OutcomeRecord) :
  ∃ (m : gmap string Stats) (ms : MarketState),
    tableOK m
    ∧ ∀ s, trainingPass (JSArray.dense l) s
           = (Normal true,
              (if bool_decide (length l < 30) then id else set_marketState ms)
                (set_trendAnalyzer (trendWindows l)
                   (set_markovChains m
                      (set_patternDatabase
                         (patternLoop (map (λ d, Some (number d)) l)) s)))).
Proof.
  destruct (trainMarkovChains_function (JSArray.dense l)) as (r & m & Hmk).
  destruct (analyzeMarketState_function (JSArray.dense l) (dense_noNullish l))
    as [ms Han].
  exists m, ms. split.
  - pose proof (trainMarkovChains_tableOK (JSArray.dense l) initialState) as Hok.
    by rewrite Hmk in Hok.
  - intros s. unfold trainingPass.
    pose proof (trainPatternRecognition_cases (JSArray.dense l) s) as Hpat.
    rewrite map_field_dense in Hpat.
    rewrite (bind_normal _ _ _ _ _ Hpat).
    destruct (trainMarkovChains_dense l
                (set_patternDatabase
                   (patternLoop (map (λ d, Some (number d)) l)) s))
      as [s2 Hs2].
    pose proof (Hmk (set_patternDatabase
                       (patternLoop (map (λ d, Some (number d)) l)) s)) as Hmk'.
    rewrite Hs2 in Hmk'. injection Hmk' as <- ->.
    rewrite (bind_normal _ _ _ _ _ Hs2).
    rewrite (bind_normal _ _ _ _ _ (trainTrendAnalyzer_dense l _)).
    unfold bind. rewrite Han.
    replace (length (JSArray.dense l)) with (length l)
      by (unfold JSArray.dense; by rewrite length_map).
    destruct (bool_decide (length l < 30)); reflexivity.
Qed.

End TrainerFunction.

(** X17 ([trainAllModels]): on an array of records, a call made while
    another pass is running returns false and leaves the state alone; any
    other call returns true with the flag released, and leaves the buffer,
    the streak counters, the model weights, the performance entries and
    the LSTM cell untouched, and the market state too when there are fewer
    than 30 records. *)
Theorem trainAllModels_on_buffer `{JSMath} (l : list OutcomeRecord) (s : State) :
  let result := trainAllModels (JSArray.dense l) s in
  if isTraining s then result = (Normal false, s)
  else
    fst result = Normal true
    ∧ isTraining (snd result) = false
    ∧ dataBuffer (snd result) = dataBuffer s
    ∧ consecutiveWins (snd result) = consecutiveWins s
    ∧ consecutiveLosses (snd result) = consecutiveLosses s
    ∧ modelWeights (snd result) = modelWeights s
    ∧ modelPerformance (snd result) = modelPerformance s
    ∧ lstmCell (snd result) = lstmCell s
    ∧ (length l < 30 → marketState (snd result) = marketState s).
Proof.
  intros result. subst result.
  destruct (isTraining s) eqn:Htr.
  - unfold trainAllModels, bind, get. by rewrite Htr.
  - rewrite (trainAllModels_unfold _ s Htr).
    destruct (trainingPass_dense_function l) as (m & ms & _ & Hpass).
    rewrite Hpass. cbn [fst snd].
    destruct (bool_decide (length l < 30)) eqn:Hlen; cbn;
      repeat split; try done.
    intros Hlt. apply bool_decide_eq_false in Hlen. lia.
Qed.

(** X18 ([trainAllModels] and the three trainers): a pass rebuilds the
    tables from the data alone.  The pattern table is the one the pattern
    loop builds from the digits, the trend windows are the first 10, 30
    and 60 bits, and two passes over the same records from two different
    states end with the same pattern table, Markov table and trend
    windows (and, from 30 records on and at the same clock reading, the
    same market state).  With fewer than 30 records a second pass over
    the same records changes nothing at all. *)
Theorem trainAllModels_rebuilds_from_data `{JSMath}
    (l : list OutcomeRecord) (s1 s2 : State) :
  isTraining s1 = false →
  isTraining s2 = false →
  let after1 := snd (trainAllModels (JSArray.dense l) s1) in
  let after2 := snd (trainAllModels (JSArray.dense l) s2) in
  patternDatabase after1 = patternLoop (map (λ d, Some (number d)) l)
  ∧ trendAnalyzer after1 = trendWindows l
  ∧ patternDatabase after1 = patternDatabase after2
  ∧ markovChains after1 = markovChains after2
  ∧ trendAnalyzer after1 = trendAnalyzer after2
  ∧ (30 ≤ length l → marketState after1 = marketState after2)
  ∧ (length l < 30 → snd (trainAllModels (JSArray.dense l) after1) = after1).
Proof.
  intros H1 H2 after1 after2. subst after1 after2.
  destruct (trainingPass_dense_function l) as (m & ms & _ & Hpass).
  rewrite (trainAllModels_unfold _ s1 H1), (trainAllModels_unfold _ s2 H2).
  rewrite !Hpass. cbn [fst snd].
  assert (Hflag : ∀ s, isTraining s = false →
            isTraining (set_isTraining false
              ((if bool_decide (length l < 30) then id else set_marketState ms)
                 (set_trendAnalyzer (trendWindows l)
                    (set_markovChains m
                       (set_patternDatabase
                          (patternLoop (map (λ d, Some (number d)) l))
                          (set_isTraining true s)))))) = false).
  { intros s _. by destruct (bool_decide (length l < 30)). }
  rewrite (trainAllModels_unfold _ _ (Hflag s1 H1)). rewrite Hpass.
  destruct (bool_decide (length l < 30)) eqn:Hlen; cbn;
    repeat split; try done.
  intros Hge. apply bool_decide_eq_true in Hlen. lia.
Qed.

Lemma trainAllModels_rebuilds_from_data_witness :
  let after1 := snd (trainAllModels (JSArray.dense Tie.data) initialState) in
  let after2 := snd (trainAllModels (JSArray.dense Tie.data) Sample.unanimous) in
  patternDatabase after1 = patternLoop (map (λ d, Some (number d)) Tie.data)
  ∧ trendAnalyzer after1 = trendWindows Tie.data
  ∧ patternDatabase after1 = patternDatabase after2
  ∧ markovChains after1 = markovChains after2
  ∧ trendAnalyzer after1 = trendAnalyzer after2
  ∧ (30 ≤ length Tie.data → marketState after1 = marketState after2)
  ∧ (length Tie.data < 30
     → snd (trainAllModels (JSArray.dense Tie.data) after1) = after1).
Proof.
  apply (trainAllModels_rebuilds_from_data Tie.data initialState Sample.unanimous).
  - reflexivity.
  - vm_compute. reflexivity.
Defined.

Section TableFrames.
Context `{JSMath}.




End TableFrames.



Section TableConfidence.
Local Open Scope Q_scope.

Lemma ratio_in_unit (a n : nat) :
  (a ≤ n)%nat → (1 ≤ n)%nat →
  0 <= JSNum.ofNat a / JSNum.ofNat n ∧ JSNum.ofNat a / JSNum.ofNat n <= 1.
Proof.
  intros Ha Hn.
  assert (Hnq : 0 < JSNum.ofNat n) by (unfold JSNum.ofNat, Qlt; simpl; lia).
  split.
  - apply Qle_shift_div_l; [done |]. unfold JSNum.ofNat, Qle. simpl. lia.
  - apply Qle_shift_div_r; [done |]. unfold JSNum.ofNat, Qle. simpl. lia.
Qed.

Lemma patternCandidate_range (db : gmap string Stats) (numbers : list nat)
    (len : nat) :
  tableOK db →
  match patternCandidate db numbers len with
  | Some (c, _) => 0 <= c ∧ c <= 1
  | None => True
  end.
Proof.
  intros Hdb. unfold patternCandidate. case_bool_decide; [done |].
  destruct (db !! _) as [stats|] eqn:Hlook; [| done].
  case_bool_decide; [| done].
  destruct (Hdb _ _ Hlook) as (_ & Hmax & Htot).
  by apply ratio_in_unit.
Qed.

Lemma patternLoop_best_range (db : gmap string Stats) (numbers : list nat)
    (lens : list nat) :
  tableOK db →
  ∀ best : Q * option Label,
    (snd best = None ∧ fst best = 0) ∨ (is_Some (snd best) ∧ 0 < fst best ∧ fst best <= 1) →
    let r := foldl (patternStep db numbers) best lens in
    (snd r = None ∧ fst r = 0) ∨ (is_Some (snd r) ∧ 0 < fst r ∧ fst r <= 1).
Proof.
  intros Hdb. induction lens as [|len lens IH]; intros best Hbest; simpl;
    [done |].
  apply IH. unfold patternStep.
  pose proof (patternCandidate_range db numbers len Hdb) as Hc.
  destruct (patternCandidate db numbers len) as [[c lab]|]; [| done].
  destruct (JSNum.gtb c (fst best)) eqn:Hgt; [| done].
  apply gtb_true in Hgt. right. simpl. split; [by eexists |].
  destruct Hbest as [[_ Hz] | (_ & Hpos & _)]; [rewrite Hz in Hgt |]; lra.
Qed.

End TableConfidence.

(** X20 ([predictWithPatterns]): on a table as training leaves it, the
    pattern model answers with a confidence above 0 and at most 1, and
    its answer either has source "pattern" or is the fallback: the
    majority of the ten latest records (BIG from five on) at 0.52,
    source "pattern_fallback". *)
Theorem predictWithPatterns_confidence_range
    (db : gmap string Stats) (data : list OutcomeRecord) :
  tableOK db →
  (0 < confidence (predictWithPatterns db data))%Q
  ∧ (confidence (predictWithPatterns db data) <= 1)%Q
  ∧ (source (predictWithPatterns db data) = "pattern"
     ∨ predictWithPatterns db data
       = {| prediction := if bool_decide (5 ≤ countBig (take 10 data))
                          then BIG else SMALL;
            confidence := 0.52%Q; source := "pattern_fallback" |}).
Proof.
  intros Hdb. unfold predictWithPatterns.
  pose proof (patternLoop_best_range db (map number data)
                CONFIG.SEQUENCE_LENGTHS Hdb (0%Q, None)) as Hr.
  destruct (foldl _ _ _) as [bestConf [p|]]; cbn [fst snd] in Hr.
  - destruct Hr as [[[=] _] | (_ & Hpos & Hle)]; [by left |].
    cbn [confidence source]. split; [done |]. split; [done | by left].
  - cbn [confidence source]. split; [lra |]. split; [lra |]. right.
    unfold JSArray.slice. by rewrite drop_0.
Qed.

Lemma predictWithPatterns_confidence_range_witness :
  (0 < confidence (predictWithPatterns Tie.db Tie.data))%Q
  ∧ (confidence (predictWithPatterns Tie.db Tie.data) <= 1)%Q
  ∧ (source (predictWithPatterns Tie.db Tie.data) = "pattern"
     ∨ predictWithPatterns Tie.db Tie.data
       = {| prediction := if bool_decide (5 ≤ countBig (take 10 Tie.data))
                          then BIG else SMALL;
            confidence := 0.52%Q; source := "pattern_fallback" |}).
Proof.
  apply (predictWithPatterns_confidence_range Tie.db Tie.data).
  apply (bool_decide_unpack _). vm_compute. reflexivity.
Defined.

(** X21 ([predictWithPatterns]): with three records or fewer no sequence
    length is tried and the fallback finds fewer than five BIG records:
    the answer is SMALL at 0.52, source "pattern_fallback", whatever the
    table holds. *)
Theorem predictWithPatterns_short_buffer
    (db : gmap string Stats) (data : list OutcomeRecord) :
  length data ≤ 3 →
  predictWithPatterns db data
  = {| prediction := SMALL; confidence := 0.52%Q; source := "pattern_fallback" |}.
Proof.
  intros Hlen. unfold predictWithPatterns.
  assert (Hloop : ∀ lens best, Forall (λ len, 3 ≤ len) lens →
            foldl (patternStep db (map number data)) best lens = best).
  { induction lens as [|len lens IH]; intros best Hlens; simpl; [done |].
    apply Forall_cons in Hlens as [Hl Hlens].
    rewrite <- (IH best Hlens) at 2. f_equal.
    unfold patternStep, patternCandidate.
    rewrite bool_decide_true; [done |]. rewrite length_map. lia. }
  rewrite Hloop by (repeat constructor; lia).
  rewrite bool_decide_false; [done |].
  unfold countBig. pose proof (length_filter (λ d, bigSmall d = BIG)
                                 (JSArray.slice 0 10 data)) as Hf.
  unfold JSArray.slice in *. rewrite length_take, length_drop in Hf. lia.
Qed.

Lemma predictWithPatterns_short_buffer_witness :
  predictWithPatterns Tie.db [Sample.r1; Sample.r3; Sample.r3']
  = {| prediction := SMALL; confidence := 0.52%Q; source := "pattern_fallback" |}.
Proof.
  apply (predictWithPatterns_short_buffer Tie.db [Sample.r1; Sample.r3; Sample.r3']).
  simpl. lia.
Defined.

Section MarkovOrder.


Lemma markovCandidate_range (chains : gmap string Stats)
    (data : list OutcomeRecord) (order : nat) :
  tableOK chains →
  match markovCandidate chains data order with
  | Some p => (0 <= confidence p)%Q ∧ (confidence p <= 1)%Q
  | None => True
  end.
Proof.
  intros Hdb. unfold markovCandidate. case_bool_decide; [done |].
  destruct (chains !! _) as [stats|] eqn:Hlook; [| done].
  case_bool_decide; [| done].
  destruct (Hdb _ _ Hlook) as (_ & Hmax & Htot).
  cbn [confidence]. by apply ratio_in_unit.
Qed.

Lemma markovLoop_range (chains : gmap string Stats) (data : list OutcomeRecord)
    (top : nat) :
  tableOK chains →
  match markovLoop chains data top with
  | Some p => (0 <= confidence p)%Q ∧ (confidence p <= 1)%Q
  | None => True
  end.
Proof.
  intros Hdb. induction top as [|top IH]; simpl; [done |].
  pose proof (markovCandidate_range chains data (S top) Hdb) as Hc.
  by destruct (markovCandidate chains data (S top)).
Qed.

End MarkovOrder.



(** X24 ([predictWithMarkov]): on a table as training leaves it, every
    answer of the Markov model has a confidence between 0 and 1. *)
Theorem predictWithMarkov_confidence_range
    (chains : gmap string Stats) (data : list OutcomeRecord) (p : Prediction) :
  tableOK chains →
  predictWithMarkov chains data = Some p →
  (0 <= confidence p)%Q ∧ (confidence p <= 1)%Q.
Proof.
  intros Hdb. unfold predictWithMarkov.
  pose proof (markovLoop_range chains data CONFIG.MARKOV_ORDER Hdb) as Hr.
  destruct (markovLoop chains data CONFIG.MARKOV_ORDER) as [q|].
  - by intros [= <-].
  - destruct (data !! 0%nat) as [d0|]; [| discriminate].
    cbn [mbind option_bind]. intros Heq.
    assert (Hc : confidence p = 0.51%Q) by (injection Heq as <-; reflexivity).
    rewrite Hc. split; by vm_compute.
Qed.

Lemma predictWithMarkov_confidence_range_witness :
  (0 <= confidence markovOrder3)%Q ∧ (confidence markovOrder3 <= 1)%Q.
Proof.
  apply (predictWithMarkov_confidence_range
           (markovChains Sample.unanimous) Sample.sevens markovOrder3).
  - apply (bool_decide_unpack _). vm_compute. reflexivity.
  - vm_compute. reflexivity.
Defined.

(** X25 ([analyzeMarketState]): the trend label from the number of BIG
    records among the ten latest.  The label contains STRONG exactly for
    seven or more, or three or fewer; it names BIG exactly from six on,
    SMALL exactly up to four, and is NEUTRAL exactly for five. *)
Theorem classifyTrend_labels (bigRecent : nat) :
  (includes (classifyTrend bigRecent) "STRONG" = true
   ↔ 7 ≤ bigRecent ∨ bigRecent ≤ 3)
  ∧ (includes (classifyTrend bigRecent) "BIG" = true ↔ 6 ≤ bigRecent)
  ∧ (includes (classifyTrend bigRecent) "SMALL" = true ↔ bigRecent ≤ 4)
  ∧ (classifyTrend bigRecent = "NEUTRAL" ↔ bigRecent = 5).
Proof.
  unfold classifyTrend.
  repeat case_bool_decide; repeat split; intros; try lia;
    try (vm_compute; reflexivity); try discriminate;
    try (exfalso; vm_compute in *; (discriminate || lia)).
  all: try (left; lia); try (right; lia).
Qed.

Section RunsFacts.
Context `{JSMath}.
Local Open Scope Q_scope.

Lemma performRunsTest_one_sided (binary : list (option nat)) :
  JSArray.count_eq 1 binary = 0%nat
  ∨ JSArray.count_eq 1 binary = length binary →
  snd (performRunsTest binary) = 0.
Proof.
  intros Hside. unfold performRunsTest. case_bool_decide; [done |].
  cbn [snd].
  match goal with
  | |- (if JSNum.gtb ?v 0 then _ else _) = _ =>
    assert (Hv : v == 0); [| assert (Hle : JSNum.gtb v 0 = false)
                               by (apply gtb_false; rewrite Hv; lra);
                             by rewrite Hle]
  end.
  unfold Qdiv.
  destruct Hside as [-> | ->].
  - change (JSNum.ofNat 0) with 0. ring.
  - ring.
Qed.

End RunsFacts.

(** X26 ([performRunsTest], [assessRandomnessQuality]): on a sequence with
    no 1 or with nothing but 1s the runs test gives z = 0, and the
    sequence is never flagged exploitable, however low its entropy. *)
Theorem assessRandomnessQuality_one_sided_not_exploitable `{JSMath}
    (binary : list (option nat)) :
  JSArray.count_eq 1 binary = 0
  ∨ JSArray.count_eq 1 binary = length binary →
  runsZ (assessRandomnessQuality binary) = 0%Q
  ∧ r_isExploitable (assessRandomnessQuality binary) = false.
Proof.
  intros Hside. unfold assessRandomnessQuality. cbn [runsZ r_isExploitable].
  rewrite (performRunsTest_one_sided binary Hside).
  split; [done |]. apply andb_false_r.
Qed.

Lemma assessRandomnessQuality_one_sided_not_exploitable_witness :
  runsZ (assessRandomnessQuality (replicate 40 (Some 1))) = 0%Q
  ∧ r_isExploitable (assessRandomnessQuality (replicate 40 (Some 1))) = false.
Proof.
  apply (assessRandomnessQuality_one_sided_not_exploitable (replicate 40 (Some 1))).
  right. vm_compute. reflexivity.
Defined.

Section SpectralFacts.
Context `{JSMath}.
Local Open Scope Q_scope.

Lemma highFreq_bits (prev : option nat) (l : list (option nat)) :
  isBit prev → Forall isBit l → highFreq prev l = 0%nat.
Proof.
  intros Hprev Hl. revert prev Hprev.
  induction Hl as [|x l Hx _ IH]; intros prev Hprev; simpl; [done |].
  rewrite (IH x Hx).
  destruct prev as [a|], x as [b|]; try done. simpl in Hprev, Hx.
  assert (Ha : a = 0%nat ∨ a = 1%nat) by lia.
  assert (Hb : b = 0%nat ∨ b = 1%nat) by lia.
  by destruct Ha as [-> | ->], Hb as [-> | ->].
Qed.

End SpectralFacts.

(** X27 ([spectralTest]): on an array of bits (holes allowed) the spectral
    test is 0, because two neighbours never differ by more than 1: the
    spectral bias of the randomness report is always 0. *)
Theorem spectralTest_of_bits_is_zero `{JSMath} (arr : list (option nat)) :
  Forall isBit arr →
  (spectralTest arr == 0)%Q
  ∧ (spectralBias (assessRandomnessQuality arr) == 0)%Q.
Proof.
  intros Harr.
  assert (Hz : (spectralTest arr == 0)%Q).
  { unfold spectralTest. destruct arr as [|a0 rest]; [reflexivity |].
    apply Forall_cons in Harr as [Ha Hrest].
    rewrite (highFreq_bits a0 rest Ha Hrest).
    change (JSNum.ofNat 0) with 0%Q. unfold Qdiv. ring. }
  split; [exact Hz |]. unfold assessRandomnessQuality. exact Hz.
Qed.

Lemma spectralTest_of_bits_is_zero_witness :
  (spectralTest [Some 1; Some 0; None; Some 1; Some 1]%nat == 0)%Q
  ∧ (spectralBias
       (assessRandomnessQuality [Some 1; Some 0; None; Some 1; Some 1]%nat)
     == 0)%Q.
Proof.
  apply (spectralTest_of_bits_is_zero [Some 1; Some 0; None; Some 1; Some 1]).
  repeat constructor.
Defined.

(** X28 ([analyzeMarketState]): from 30 records on, on an array without
    null or undefined, the function returns a new market state and
    stores it, changing nothing else.  Its confidence lies between 0.3
    and 0.9 and its bias between 0 and 1, the exploitable flag is set to
    a boolean, the time stamp is the clock reading, the randomness
    quality is 1 - entropy, and the trend is one of the five labels. *)
Theorem analyzeMarketState_from_30 `{JSMath}
    (data : list (Slot OutcomeRecord)) (s : State) :
  noNullish data →
  30 ≤ length data →
  ∃ ms : MarketState,
    analyzeMarketState data s = (Normal ms, set_marketState ms s)
    ∧ (0.3 <= market_confidence ms)%Q ∧ (market_confidence ms <= 0.9)%Q
    ∧ (0 <= bias ms)%Q ∧ (bias ms <= 1)%Q
    ∧ is_Some (isExploitable ms)
    ∧ lastUpdate ms = Date_now
    ∧ randomnessQuality ms = (1 - entropy ms / 1)%Q
    ∧ recentTrend ms ∈ ["STRONG_BIG"; "BIAS_BIG"; "STRONG_SMALL";
                        "BIAS_SMALL"; "NEUTRAL"].
Proof.
  intros Hd Hlen. unfold analyzeMarketState, bind, get, lift.
  rewrite bool_decide_false by lia.
  destruct (JSArray.map_field binary
              (JSArray.slice 0 (50 `min` length data) data)) as [bits|] eqn:Hbits.
  2: { exfalso.
       destruct (proj2 (map_field_is_Some binary
                   (JSArray.slice 0 (50 `min` length data) data))
                   (noNullish_slice _ _ _ Hd)) as [b Hb]. congruence. }
  destruct (proj2 (map_field_is_Some number
              (JSArray.slice 0 (50 `min` length data) data))
              (noNullish_slice _ _ _ Hd)) as [nums ->].
  cbn [ret]. destruct (calculateStats nums) as [[mean std] variance].
  eexists. split; [reflexivity |].
  cbn [market_confidence bias isExploitable lastUpdate randomnessQuality
         entropy recentTrend].
  assert (Hblen : 30 ≤ length bits).
  { assert (Hl : ∀ (arr : list (Slot OutcomeRecord)) (out : list (option nat)),
              JSArray.map_field binary arr = Some out → length out = length arr).
    { induction arr as [|x arr IH]; intros out; simpl; [by intros [= <-] |].
      destruct x as [| |a]; [| done |];
        destruct (JSArray.map_field binary arr) as [o|]; try done;
        intros [= <-]; simpl; f_equal; by apply IH. }
    rewrite (Hl _ _ Hbits). unfold JSArray.slice.
    rewrite length_take, length_drop. lia. }
  split; [apply Q.le_max_l |].
  split; [apply Q.max_lub; [lra | apply Q.le_min_l] |].
  pose proof (length_filter (λ b, b = Some 1%nat) bits) as Hcount.
  fold (JSArray.count_eq 1 bits) in Hcount.
  destruct (ratio_in_unit (JSArray.count_eq 1 bits) (length bits))
    as [Hb0 Hb1]; [done | lia |].
  split; [exact Hb0 |]. split; [exact Hb1 |].
  split; [by eexists |]. split; [done |]. split; [done |].
  unfold classifyTrend. repeat case_bool_decide; set_solver.
Qed.

Lemma analyzeMarketState_from_30_witness :
  ∃ ms : MarketState,
    analyzeMarketState (JSArray.dense (Tie.data ++ Tie.data)) initialState
    = (Normal ms, set_marketState ms initialState)
    ∧ (0.3 <= market_confidence ms)%Q ∧ (market_confidence ms <= 0.9)%Q
    ∧ (0 <= bias ms)%Q ∧ (bias ms <= 1)%Q
    ∧ is_Some (isExploitable ms)
    ∧ lastUpdate ms = Date_now
    ∧ randomnessQuality ms = (1 - entropy ms / 1)%Q
    ∧ recentTrend ms ∈ ["STRONG_BIG"; "BIAS_BIG"; "STRONG_SMALL";
                        "BIAS_SMALL"; "NEUTRAL"].
Proof.
  apply (analyzeMarketState_from_30 (JSArray.dense (Tie.data ++ Tie.data))
           initialState).
  - unfold noNullish. vm_compute.
    repeat (constructor; [discriminate |]). constructor.
  - vm_compute. lia.
Defined.

(** X6 ([updateModelWeights]): after any sequence of calls from the
    initial state, the entry of each of the six configured models counts
    the calls that named it ([total]) and those of them that were correct
    ([wins]); so wins never exceed the total, and the recent accuracy
    stays between 0 and 1. *)
Theorem run_counts_outcomes (model : string) (calls : list (string * bool)) :
  model ∈ map fst CONFIG.INITIAL_WEIGHTS →
  ∃ perf : Perf,
    lookupKey model (modelPerformance (adapt calls initialState)) = Some perf
    ∧ perf_total perf = outcomesOf model calls
    ∧ wins perf = correctOf model calls
    ∧ wins perf ≤ perf_total perf
    ∧ (0 <= recentAccuracy perf)%Q ∧ (recentAccuracy perf <= 1)%Q.
Proof.
  intros Hmodel.
  destruct (adapt_counters model calls Hmodel)
    as (perf & Hl & Ht & Hw & Ha0 & Ha1).
  exists perf. split; [done |]. split; [done |]. split; [done |].
  split; [| done].
  rewrite Ht, Hw. unfold outcomesOf, correctOf. clear.
  induction calls as [|c calls IH]; [done |].
  rewrite !filter_cons.
  destruct (decide (fst c = model ∧ snd c = true)) as [[Hc _] | Hn];
    destruct (decide (fst c = model)) as [Hm | Hm]; simpl; try lia.
  contradiction.
Qed.

Lemma run_counts_outcomes_witness :
  ∃ perf : Perf,
    lookupKey "trend"
      (modelPerformance
         (adapt [("trend", true); ("markov", false); ("trend", false)]
                initialState))
    = Some perf
    ∧ perf_total perf
      = outcomesOf "trend" [("trend", true); ("markov", false); ("trend", false)]
    ∧ wins perf
      = correctOf "trend" [("trend", true); ("markov", false); ("trend", false)]
    ∧ wins perf ≤ perf_total perf
    ∧ (0 <= recentAccuracy perf)%Q ∧ (recentAccuracy perf <= 1)%Q.
Proof.
  apply (run_counts_outcomes "trend"
           [("trend", true); ("markov", false); ("trend", false)]).
  apply (bool_decide_unpack _). vm_compute. reflexivity.
Defined.

(** X29 ([syncPeriods]): a call either leaves both globals as they are or
    drops the pending entries of the history and empties the set of seen
    periods, the two together; entries that are not pending are never
    dropped nor reordered; calling again with the same data changes
    nothing more; and with no data or an empty history nothing happens.
    This holds for any [calculateNextPeriod]. *)
Theorem syncPeriods_effect (calculateNextPeriod : string → string)
    (latestData : list OutcomeRecord) (st : SyncState) :
  let st' := syncPeriods calculateNextPeriod latestData st in
  (st' = st
   ∨ (predictionHistory st' = filter isResolved (predictionHistory st)
      ∧ seenPeriods st' = ∅))
  ∧ filter isResolved (predictionHistory st')
    = filter isResolved (predictionHistory st)
  ∧ syncPeriods calculateNextPeriod latestData st' = st'
  ∧ ((latestData = [] ∨ predictionHistory st = []) → st' = st).
Proof.
  intros st'. subst st'. unfold syncPeriods.
  destruct latestData as [|d0 rest]; [by repeat split; auto |].
  destruct (predictionHistory st) as [|p0 hist] eqn:Hh.
  { rewrite Hh. by repeat split; auto. }
  destruct (negb (bool_decide (period p0 = ""))
            && negb (bool_decide (period p0 = calculateNextPeriod (issueNumber d0))))
    eqn:Hmis.
  - cbn [predictionHistory seenPeriods].
    assert (Hff : filter isResolved (filter isResolved (p0 :: hist))
                  = filter isResolved (p0 :: hist)).
    { rewrite list_filter_filter. apply list_filter_iff. intros x. tauto. }
    split; [by right |]. split; [exact Hff |].
    split; [| by intros [[=] | [=]]].
    destruct (filter isResolved (p0 :: hist)) as [|q0 hist'] eqn:Hf; [done |].
    cbn [predictionHistory]. rewrite Hff.
    destruct (negb (bool_decide (period q0 = ""))
              && negb (bool_decide
                         (period q0 = calculateNextPeriod (issueNumber d0))));
      reflexivity.
  - rewrite Hh. split; [by left |]. split; [done |].
    split; [by rewrite Hmis | by intros [[=] | [=]]].
Qed.

(** X22 ([predictWithMarkov]): an order is skipped unless the buffer holds
    more records than the order; with one record in the buffer the answer
    is therefore the fallback, the opposite of that record's label at
    0.51, source "markov_fallback". *)
Theorem predictWithMarkov_short_buffer
    (chains : gmap string Stats) (data : list OutcomeRecord) :
  (∀ order, length data ≤ order → markovCandidate chains data order = None)
  ∧ ∀ d : OutcomeRecord,
      predictWithMarkov chains [d]
      = Some {| prediction := flipLabel (bigSmall d); confidence := 0.51%Q;
                source := "markov_fallback" |}.
Proof.
  split; [| reflexivity].
  intros order Hlen. unfold markovCandidate.
  rewrite bool_decide_true; [done | lia].
Qed.
